(** * NeoVox: the voxel store, the instance projection and the raycast
      interaction, embedded from [VoxelStore.js] and [VoxelEngine.jsx].

    The store is a zustand store holding an array of voxel objects and the
    selected colour; its actions are modelled as functions on the store
    value (explicit state passing).  The React component state of
    [Interaction] is a record, one field per [useState] cell. *)

From Stdlib Require Import ZArith QArith Qround Lqa SpecFloat Ascii String List Lia.
From stdpp Require Import base list.
Import ListNotations.

Local Open Scope string_scope.
Local Open Scope list_scope.
Local Open Scope Z_scope.

(** ** JavaScript values that object properties of a voxel can hold *)

(** A property that is absent from an object reads as [JUndefined]. *)
Inductive jsval : Type :=
  | JUndefined
  | JNull
  | JNum (n : Z)
  | JStr (s : string).

(** ToBoolean, as used by [if (v)], [a && b] and [a || b]. *)
Definition truthy (v : jsval) : bool :=
  match v with
  | JUndefined | JNull => false
  | JNum n => negb (n =? 0)
  | JStr s => negb (String.eqb s EmptyString)
  end.

(** [a || b] *)
Definition js_or (a b : jsval) : jsval := if truthy a then a else b.

(** ** Voxels and the store *)

Module Voxel.
(** A voxel object.  [x], [y], [z] are the integer cell; [color] and [id]
    are whatever the object carries ([JUndefined] when the key is
    absent). *)
Record t : Type := mk { x : Z; y : Z; z : Z; color : jsval; id : jsval }.

Definition position (v : t) : Z * Z * Z := (x v, y v, z v).
End Voxel.

(** [create((set, get) => ({ voxels: [], selectedColor: '#00ffff', ... }))] *)
Record store : Type := Store {
  voxels : list Voxel.t;
  selectedColor : string
}.

Definition initial_store : store :=
  {| voxels := []; selectedColor := "#00ffff" |}.

(** [console.error(msg, error)] calls, oldest first. *)
Inductive log_entry : Type :=
  | ConsoleError (msg : string) (error : string).

(** The store together with the console, which the async actions write. *)
Record world : Type := World {
  st : store;
  console : list log_entry
}.

Definition initial_world : world := {| st := initial_store; console := [] |}.

(** [setSelectedColor: (color) => set({ selectedColor: color })] *)
Definition setSelectedColor (c : string) (s : store) : store :=
  {| voxels := voxels s; selectedColor := c |}.

(** *** initializeVoxels *)

(** One row of [.from('voxels').select('x, y, z, color')]: the query names
    four columns, so a row object has exactly these four keys. *)
Record selected_row : Type := Row {
  row_x : Z; row_y : Z; row_z : Z; row_color : jsval
}.

(** The row object as a voxel object: it has no [id] key. *)
Definition voxel_of_row (r : selected_row) : Voxel.t :=
  Voxel.mk (row_x r) (row_y r) (row_z r) (row_color r) JUndefined.

(** The awaited [{ data, error }]. *)
Record select_response : Type := SelectResponse {
  data : option (list selected_row);
  select_error : option string
}.

(** [if (error) { console.error(..); return }  set({ voxels: data || [] })] *)
Definition initializeVoxels (r : select_response) (w : world) : world :=
  match select_error r with
  | Some e =>
      {| st := st w;
         console := console w ++ [ConsoleError "Error fetching voxels:" e] |}
  | None =>
      {| st := {| voxels := match data r with
                            | Some rows => map voxel_of_row rows
                            | None => []
                            end;
                  selectedColor := selectedColor (st w) |};
         console := console w |}
  end.

(** *** addVoxel *)

(** [const newVoxel = { x, y, z, color: selectedColor }] *)
Definition newVoxel (x y z : Z) (s : store) : Voxel.t :=
  Voxel.mk x y z (JStr (selectedColor s)) JUndefined.

(** The part of [addVoxel] that runs before the [await]:
    [set((state) => ({ voxels: [...state.voxels, newVoxel] }))]; the second
    component is the row handed to [supabase.from('voxels').insert]. *)
Definition addVoxel_optimistic (x y z : Z) (s : store) : store * Voxel.t :=
  let v := newVoxel x y z s in
  ({| voxels := voxels s ++ [v]; selectedColor := selectedColor s |}, v).

(** The part after the [await], run when the insert has answered with
    [{ error }]: [if (error) console.error('Error saving voxel:', error)]. *)
Definition addVoxel_settled (error : option string) (w : world) : world :=
  match error with
  | Some e =>
      {| st := st w;
         console := console w ++ [ConsoleError "Error saving voxel:" e] |}
  | None => w
  end.

(** The whole action when nothing else runs between the two parts. *)
Definition addVoxel (x y z : Z) (error : option string) (w : world) : world :=
  let '(s', _) := addVoxel_optimistic x y z (st w) in
  addVoxel_settled error {| st := s'; console := console w |}.

(** *** subscribeToVoxels *)

(** [v.x === newVoxel.x && v.y === newVoxel.y && v.z === newVoxel.z] *)
Definition same_cell (n v : Voxel.t) : bool :=
  (Voxel.x v =? Voxel.x n) && (Voxel.y v =? Voxel.y n) && (Voxel.z v =? Voxel.z n).

(** The [postgres_changes] INSERT callback, applied to [payload.new]. *)
Definition onInsert (payload_new : Voxel.t) (s : store) : store :=
  let currentVoxels := voxels s in
  let exists_ := existsb (same_cell payload_new) currentVoxels in
  if negb exists_
  then {| voxels := voxels s ++ [payload_new]; selectedColor := selectedColor s |}
  else s.

(** The store exposes exactly the keys [voxels], [selectedColor],
    [setSelectedColor], [initializeVoxels], [addVoxel] and
    [subscribeToVoxels].  Reading any other key, such as
    [state.removeVoxel], yields [undefined]. *)
Definition removeVoxel : option (jsval -> store -> store) := None.

(** ** Sequences of add operations *)

Inductive add_op : Type :=
  | LocalAdd (x y z : Z) (error : option string)
  | RemoteInsert (payload_new : Voxel.t).

Definition apply_op (w : world) (o : add_op) : world :=
  match o with
  | LocalAdd x y z e => addVoxel x y z e w
  | RemoteInsert p => {| st := onInsert p (st w); console := console w |}
  end.

Definition run_ops (ops : list add_op) (w : world) : world :=
  fold_left apply_op ops w.

Definition is_remote (o : add_op) : bool :=
  match o with RemoteInsert _ => true | LocalAdd _ _ _ _ => false end.

(** Everything that writes the store: the initial load, a colour pick, and
    the two kinds of add. *)
Inductive store_event : Type :=
  | InitialLoad (r : select_response)
  | ColorPicked (c : string)
  | Added (o : add_op).

Definition apply_event (w : world) (ev : store_event) : world :=
  match ev with
  | InitialLoad r => initializeVoxels r w
  | ColorPicked c => {| st := setSelectedColor c (st w); console := console w |}
  | Added o => apply_op w o
  end.

Definition run_events (evs : list store_event) (w : world) : world :=
  fold_left apply_event evs w.

(** No two voxels of the grid share a cell. *)
Definition unique_positions (s : store) : Prop :=
  NoDup (map Voxel.position (voxels s)).

(** ** The instanced mesh that [VoxelInstances] fills *)

(** What the projection needs of three.js's [Color]: the channel triple and
    the two setters that [Color.set] dispatches to.  [setStyle] is [None]
    where three.js warns about an unknown colour and leaves the object as it
    was. *)
Class ThreeColor : Type := {
  rgb : Type;
  white : rgb;
  setHex : Z -> rgb;
  setStyle : string -> option rgb
}.

(** [Matrix4.elements], column-major, sixteen entries. *)
Definition Matrix4 : Type := list Z.

(** An element of a [Float32Array]: an IEEE single (24-bit significand). *)
Definition float32 : Type := spec_float.

(** The conversion a [Float32Array] applies to a number stored into it,
    here on integers: round to nearest, ties to even. *)
Definition to_float32 (n : Z) : float32 := binary_normalize 24 128 n 0 false.


(** Sixteen consecutive elements of the matrix attribute. *)
Definition matrix_slot : Type := list float32.

(** What [toArray] leaves in the attribute for a matrix. *)
Definition stored (m : Matrix4) : matrix_slot := map to_float32 m.

Definition zero_matrix : matrix_slot := replicate 16 (S754_zero false).


(** [dummy.position.set(x, y, z); dummy.updateMatrix()]: [dummy] is a fresh
    [Object3D] whose rotation and scale are never touched, so [compose]
    yields these elements. *)
Definition updateMatrix (x y z : Z) : Matrix4 :=
  [1; 0; 0; 0;
   0; 1; 0; 0;
   0; 0; 1; 0;
   x; y; z; 1].


(** How an effect or handler ends: normally, or by an exception that leaves
    the state as it was when thrown. *)
Inductive outcome (A : Type) : Type :=
  | Returned (a : A)
  | Threw (error : string) (a : A).

Arguments Returned {A} a.
Arguments Threw {A} error a.

Section Projection.
Context `{ThreeColor}.

(** [count] is the number of instances drawn; [instanceMatrix] has one
    slot per instance the mesh was constructed for; [instanceColor] is
    [null] until the first [setColorAt].  Slots stand for groups of 16
    (resp. 3) consecutive floats of the typed arrays; the matrix slots hold
    singles, the colour slots whatever [rgb] is.  The [needsUpdate] flags
    and the bounding sphere are left out, nothing below reads them. *)
Record InstancedMesh : Type := Mesh {
  count : nat;
  instanceMatrix : list matrix_slot;
  instanceColor : option (list rgb)
}.

(** [new THREE.InstancedMesh(null, null, n)]: the attribute is a fresh
    [Float32Array] (releases of three.js from r152 on then write identity
    matrices into it; no slot is read below before it is written). *)
Definition new_InstancedMesh (n : nat) : InstancedMesh :=
  {| count := n; instanceMatrix := replicate n zero_matrix; instanceColor := None |}.

(** [mesh.count = n] *)
Definition set_count (n : nat) (mesh : InstancedMesh) : InstancedMesh :=
  {| count := n;
     instanceMatrix := instanceMatrix mesh;
     instanceColor := instanceColor mesh |}.

(** [matrix.toArray(this.instanceMatrix.array, index * 16)]: a typed array
    converts what is stored to its element type and ignores writes past
    its end. *)
Definition setMatrixAt (index : nat) (m : Matrix4) (mesh : InstancedMesh) : InstancedMesh :=
  {| count := count mesh;
     instanceMatrix := <[index := stored m]> (instanceMatrix mesh);
     instanceColor := instanceColor mesh |}.

(** [if (this.instanceColor === null) this.instanceColor = new ...(
    new Float32Array(this.instanceMatrix.count * 3).fill(1), 3);
    color.toArray(this.instanceColor.array, index * 3)] *)
Definition setColorAt (index : nat) (c : rgb) (mesh : InstancedMesh) : InstancedMesh :=
  let colors := match instanceColor mesh with
                | Some cs => cs
                | None => replicate (length (instanceMatrix mesh)) white
                end in
  {| count := count mesh;
     instanceMatrix := instanceMatrix mesh;
     instanceColor := Some (<[index := c]> colors) |}.

(** [colorHelper.set(value)] for a single argument: a number goes to
    [setHex], a string to [setStyle], anything else leaves the colour. *)
Definition Color_set (helper : rgb) (value : jsval) : rgb :=
  match value with
  | JNum n => setHex n
  | JStr s => match setStyle s with Some c => c | None => helper end
  | JUndefined | JNull => helper
  end.

(** [voxel.color || '#00d2ff'] *)
Definition color_or_default (voxel : Voxel.t) : jsval :=
  js_or (Voxel.color voxel) (JStr "#00d2ff").

(** [voxels.forEach((voxel, i) => { ... })], from index [i] on; the
    colour helper is one object shared by all iterations. *)
Fixpoint forEach_voxel (i : nat) (vs : list Voxel.t)
         (mesh : InstancedMesh) (colorHelper : rgb) : InstancedMesh * rgb :=
  match vs with
  | [] => (mesh, colorHelper)
  | voxel :: rest =>
      let matrix := updateMatrix (Voxel.x voxel) (Voxel.y voxel) (Voxel.z voxel) in
      let mesh1 := setMatrixAt i matrix mesh in
      let colorHelper' := Color_set colorHelper (color_or_default voxel) in
      let mesh2 := setColorAt i colorHelper' mesh1 in
      forEach_voxel (S i) rest mesh2 colorHelper'
  end.

(** The effect of [VoxelInstances], lines 45-70, on the mesh behind
    [meshRef] and on the memoised colour helper. *)
Definition VoxelInstances_effect (meshRef : option InstancedMesh)
           (colorHelper : rgb) (voxels : list Voxel.t)
  : outcome (option InstancedMesh * rgb) :=
  match meshRef with
  | None => Returned (None, colorHelper)
  | Some mesh =>
      let mesh0 := set_count (length voxels) mesh in
      let '(mesh', colorHelper') := forEach_voxel 0 voxels mesh0 colorHelper in
      Returned (Some mesh', colorHelper')
  end.

(** The colour slots of a mesh, reading a [null] attribute as the array
    that the first [setColorAt] allocates. *)
Definition color_slots (mesh : InstancedMesh) : list rgb :=
  match instanceColor mesh with
  | Some cs => cs
  | None => replicate (length (instanceMatrix mesh)) white
  end.

(** The colour attribute, once allocated, has as many slots as the
    matrix attribute (it is allocated from [instanceMatrix.count]). *)
Definition mesh_wf (mesh : InstancedMesh) : Prop :=
  length (color_slots mesh) = length (instanceMatrix mesh).

(** The colour helper after the loop has gone through [vs]. *)
Definition helper_after (colorHelper : rgb) (vs : list Voxel.t) : rgb :=
  fold_left (fun h v => Color_set h (color_or_default v)) vs colorHelper.
End Projection.

(** [const MAX_INSTANCES = 100000] *)
Definition MAX_INSTANCES : nat := Z.to_nat 100000.

(** A small colour instance to evaluate examples with: channels are bytes
    and only six-digit hexadecimal styles are recognised. *)
Definition hex_digit (c : Ascii.ascii) : option Z :=
  let n := Z.of_nat (Ascii.nat_of_ascii c) in
  if (48 <=? n) && (n <=? 57) then Some (n - 48)
  else if (97 <=? n) && (n <=? 102) then Some (n - 87)
  else if (65 <=? n) && (n <=? 70) then Some (n - 55)
  else None.

Fixpoint hex_value (s : string) (acc : Z) : option Z :=
  match s with
  | EmptyString => Some acc
  | String c rest =>
      match hex_digit c with
      | Some d => hex_value rest (16 * acc + d)
      | None => None
      end
  end.

Definition bytes_of_hex (n : Z) : Z * Z * Z :=
  ((n / 65536) mod 256, (n / 256) mod 256, n mod 256).

Definition hex6_style (s : string) : option (Z * Z * Z) :=
  match s with
  | String "#"%char digits =>
      if (String.length digits =? 6)%nat
      then option_map bytes_of_hex (hex_value digits 0)
      else None
  | _ => None
  end.

#[local] Instance hex6_color : ThreeColor :=
  {| rgb := Z * Z * Z; white := (255, 255, 255);
     setHex := bytes_of_hex; setStyle := hex6_style |}.

(** ** The raycast interaction *)

(** Points and normals of a ray hit.  Coordinates are exact rationals: every
    finite double is one, and on the inputs used below (halves and small
    integers) the double operations are exact. *)
Record Vector3 : Type := V3 { v3x : Q; v3y : Q; v3z : Q }.

Definition multiplyScalar (v : Vector3) (k : Q) : Vector3 :=
  V3 (v3x v * k) (v3y v * k) (v3z v * k).

Definition Vector3_add (a b : Vector3) : Vector3 :=
  V3 (v3x a + v3x b) (v3y a + v3y b) (v3z a + v3z b).

(** [Math.round]: the nearest integer, a tie going towards plus infinity. *)
Definition Math_round (q : Q) : Z := Qfloor (q + (1 # 2)).

(** [n] is an integer nearest to [q], the upper one at a tie. *)
Definition nearest_integer (q : Q) (n : Z) : Prop :=
  (inject_Z n - (1 # 2) <= q)%Q /\ (q < inject_Z n + (1 # 2))%Q.

(** One element of [raycaster.intersectObjects(..)]: [object.name],
    [instanceId] ([None] for [undefined]), [point] and [face.normal]. *)
Record intersection : Type := Hit {
  object_name : string;
  instanceId : option nat;
  point : Vector3;
  face_normal : Vector3
}.

(** Lines 189-192: [hit.point.clone().add(hit.face.normal.clone()
    .multiplyScalar(0.5))], each axis through [Math.round], on the exact
    values of the coordinates.  JavaScript rounds the sum to a double
    before [Math.round] sees it: that computation is [targetCell_double]
    below, and the two agree whenever the three sums are exact. *)
Definition targetCell (hit_point normal : Vector3) : Z * Z * Z :=
  let p := Vector3_add hit_point (multiplyScalar normal (1 # 2)) in
  (Math_round (v3x p), Math_round (v3y p), Math_round (v3z p)).

(** The same lines on IEEE doubles (53-bit significand), as JavaScript
    computes them: the product and the sum round to nearest even, and
    [Math.round] is exact.  It is [None] on NaN and the infinities, which
    [Math.round] returns unchanged and which are no cell. *)
Definition double : Type := spec_float.

Definition double_add : double -> double -> double := SFadd 53 1024.
Definition double_mul : double -> double -> double := SFmul 53 1024.

Definition double_0 : double := S754_zero false.
Definition double_0_5 : double := S754_finite false 4503599627370496 (-53).
Definition double_1 : double := S754_finite false 4503599627370496 (-52).

Definition Math_round_double (d : double) : option Z :=
  match d with
  | S754_zero _ => Some 0
  | S754_finite sign m e =>
      let v := if sign then Z.neg m else Z.pos m in
      Some (if 0 <=? e then v * 2 ^ e
            else (2 * v + 2 ^ (- e)) / 2 ^ (1 - e))
  | S754_infinity _ | S754_nan => None
  end.

(** The number a finite double stands for, [None] for NaN and the
    infinities. *)
Definition double_to_Q (d : double) : option Q :=
  match d with
  | S754_zero _ => Some 0%Q
  | S754_finite sign m e =>
      let v := if sign then Z.neg m else Z.pos m in
      Some (match e with
            | Z.neg p => v # (2 ^ p)%positive
            | _ => inject_Z (v * 2 ^ e)
            end)
  | S754_infinity _ | S754_nan => None
  end.

Definition targetCell_double (hit_point normal : double * double * double)
  : option (Z * Z * Z) :=
  let '(px, py, pz) := hit_point in
  let '(nx, ny, nz) := normal in
  match Math_round_double (double_add px (double_mul nx double_0_5)),
        Math_round_double (double_add py (double_mul ny double_0_5)),
        Math_round_double (double_add pz (double_mul nz double_0_5)) with
  | Some x, Some y, Some z => Some (x, y, z)
  | _, _, _ => None
  end.

(** The three [useState] cells of [Interaction]. *)
Record interaction : Type := Interaction {
  ghost : option (Z * Z * Z);
  isHoveringVoxel : bool;
  hoveredVoxelId : jsval
}.

(** [useState(null)], [useState(false)], [useState(null)] *)
Definition initial_interaction : interaction :=
  {| ghost := None; isHoveringVoxel := false; hoveredVoxelId := JNull |}.

(** The [useFrame] callback, lines 151-198.  [voxels] is the array the
    component closed over at its last render, [intersects] the sorted
    result of the raycast. *)
Definition useFrame_callback (voxels : list Voxel.t) (intersects : list intersection)
           (ui : interaction) : interaction :=
  match intersects with
  | hit :: _ =>
      let '(hovering, hovered) :=
        if String.eqb (object_name hit) "voxels" then
          (true,
           match instanceId hit with
           | Some i =>
               match voxels !! i with
               | Some targetVoxel => Voxel.id targetVoxel
               | None => hoveredVoxelId ui
               end
           | None => hoveredVoxelId ui
           end)
        else (false, JNull) in
      {| ghost := Some (targetCell (point hit) (face_normal hit));
         isHoveringVoxel := hovering;
         hoveredVoxelId := hovered |}
  | [] =>
      {| ghost := None;
         isHoveringVoxel := false;
         hoveredVoxelId := hoveredVoxelId ui |}
  end.

(** ** Pointer presses *)

(** The two properties of the [mousedown] event that the handler reads. *)
Record mouse_event : Type := MouseEvent { button : Z; altKey : bool }.

(** A call the handler makes on the store. *)
Inductive store_call : Type :=
  | Call_addVoxel (x y z : Z)
  | Call_removeVoxel (id : jsval).

(** [handleMouseDown], lines 201-212: the store calls it makes, in order. *)
Definition handleMouseDown_calls (ui : interaction) (e : mouse_event) : list store_call :=
  match ghost ui with
  | None => []
  | Some (gx, gy, gz) =>
      (if (button e =? 0) && negb (altKey e)
       then [Call_addVoxel gx gy gz] else [])
      ++
      (if (button e =? 0) && altKey e && isHoveringVoxel ui && truthy (hoveredVoxelId ui)
       then [Call_removeVoxel (hoveredVoxelId ui)] else [])
  end.

(** One store call, up to its first [await].  [addVoxel] appends and hands
    its row to the insert; [removeVoxel] is whatever the store holds under
    that key, and calling [undefined] throws. *)
Definition do_call (c : store_call) (s : store) : outcome store :=
  match c with
  | Call_addVoxel x y z => Returned (fst (addVoxel_optimistic x y z s))
  | Call_removeVoxel i =>
      match removeVoxel with
      | Some f => Returned (f i s)
      | None => Threw "TypeError: removeVoxel is not a function" s
      end
  end.

Fixpoint do_calls (cs : list store_call) (s : store) : outcome store :=
  match cs with
  | [] => Returned s
  | c :: rest =>
      match do_call c s with
      | Returned s' => do_calls rest s'
      | Threw err s' => Threw err s'
      end
  end.

(** The handler run against the store. *)
Definition handleMouseDown (ui : interaction) (e : mouse_event) (s : store) : outcome store :=
  do_calls (handleMouseDown_calls ui e) s.

(** The state in which an outcome leaves the store. *)
Definition final {A : Type} (o : outcome A) : A :=
  match o with Returned a => a | Threw _ a => a end.

Definition threw {A : Type} (o : outcome A) : bool :=
  match o with Returned _ => false | Threw _ _ => true end.

(** ** The end-to-end scenario *)

(** Primary button, no modifier; primary button with Alt held. *)
Definition press_add : mouse_event := {| button := 0; altKey := false |}.
Definition press_remove : mouse_event := {| button := 0; altKey := true |}.

(** A hit on the ground object whose target cell is (2, 3, -1). *)
Definition hit_ground_2_3_m1 : intersection :=
  Hit "ground" None (V3 2 3 (-3 # 2)) (V3 0 0 1).

(** A hit on instance [i] of the voxel batch, on the top z-face of the cell
    (2, 3, -1). *)
Definition hit_instance (i : nat) : intersection :=
  Hit "voxels" (Some i) (V3 2 3 (-1 # 2)) (V3 0 0 1).

(** Empty grid; a frame that yields the candidate; an Add press; a frame
    hovering the placed voxel; a Remove press. *)
Definition scenario_ui1 : interaction :=
  useFrame_callback (voxels initial_store) [hit_ground_2_3_m1] initial_interaction.

Definition scenario_store1 : store :=
  final (handleMouseDown scenario_ui1 press_add initial_store).

Definition scenario_ui2 : interaction :=
  useFrame_callback (voxels scenario_store1) [hit_instance 0] scenario_ui1.

Definition scenario_end : outcome store :=
  handleMouseDown scenario_ui2 press_remove scenario_store1.

(** ** The faces of a voxel *)

(** The six faces of [boxGeometry args={[1, 1, 1]}], by outward normal. *)
Inductive face : Type := PosX | NegX | PosY | NegY | PosZ | NegZ.

Definition face_direction (f : face) : Z * Z * Z :=
  match f with
  | PosX => (1, 0, 0) | NegX => (-1, 0, 0)
  | PosY => (0, 1, 0) | NegY => (0, -1, 0)
  | PosZ => (0, 0, 1) | NegZ => (0, 0, -1)
  end.

Definition face_unit_normal (f : face) : Vector3 :=
  let '(nx, ny, nz) := face_direction f in
  V3 (inject_Z nx) (inject_Z ny) (inject_Z nz).

(** Coordinate [p] of a point of the face, along an axis on which the
    normal has component [n] and the cube's centre has coordinate [c]: on
    the normal's axis it is half a unit out from the centre, on the other
    two it ranges over the cube, the upper edge left out. *)
Definition on_face_axis (c n : Z) (p : Q) : Prop :=
  if n =? 0
  then (inject_Z c - (1 # 2) <= p)%Q /\ (p < inject_Z c + (1 # 2))%Q
  else (p == inject_Z c + inject_Z n * (1 # 2))%Q.

(** [p] lies on face [f] of the unit cube centred at the cell [c]. *)
Definition on_face (c : Z * Z * Z) (f : face) (p : Vector3) : Prop :=
  let '(cx, cy, cz) := c in
  let '(nx, ny, nz) := face_direction f in
  on_face_axis cx nx (v3x p) /\ on_face_axis cy ny (v3y p) /\ on_face_axis cz nz (v3z p).

(** ** The movement keys of [Player] *)

Module Player.
(** [useState({ forward: false, backward: false, left: false, right: false,
    up: false, down: false })] *)
Record move : Type := Move {
  forward : bool; backward : bool; left : bool; right : bool;
  up : bool; down : bool
}.

Definition initial_move : move :=
  {| forward := false; backward := false; left := false; right := false;
     up := false; down := false |}.

(** The two [switch (e.code)] blocks, lines 91-110: each case is
    [setMove(m => ({ ...m, key: b }))], [b] being [true] in [handleKeyDown]
    and [false] in [handleKeyUp]; a code without a case falls through. *)
Definition set_key (code : string) (b : bool) (m : move) : move :=
  if String.eqb code "KeyW" then
    {| forward := b; backward := backward m; left := left m; right := right m;
       up := up m; down := down m |}
  else if String.eqb code "KeyS" then
    {| forward := forward m; backward := b; left := left m; right := right m;
       up := up m; down := down m |}
  else if String.eqb code "KeyA" then
    {| forward := forward m; backward := backward m; left := b; right := right m;
       up := up m; down := down m |}
  else if String.eqb code "KeyD" then
    {| forward := forward m; backward := backward m; left := left m; right := b;
       up := up m; down := down m |}
  else if String.eqb code "Space" then
    {| forward := forward m; backward := backward m; left := left m; right := right m;
       up := b; down := down m |}
  else if String.eqb code "ShiftLeft" then
    {| forward := forward m; backward := backward m; left := left m; right := right m;
       up := up m; down := b |}
  else m.

Definition handleKeyDown (code : string) (m : move) : move := set_key code true m.
Definition handleKeyUp (code : string) (m : move) : move := set_key code false m.

(** A [keydown] or [keyup] event of the document, with its [code]. *)
Inductive key_event : Type :=
  | KeyDown (code : string)
  | KeyUp (code : string).

Definition code_of (ev : key_event) : string :=
  match ev with KeyDown c => c | KeyUp c => c end.

Definition is_down (ev : key_event) : bool :=
  match ev with KeyDown _ => true | KeyUp _ => false end.

Definition on_key (m : move) (ev : key_event) : move :=
  match ev with
  | KeyDown c => handleKeyDown c m
  | KeyUp c => handleKeyUp c m
  end.

Definition run_keys (evs : list key_event) (m : move) : move :=
  fold_left on_key evs m.

(** The flag that a key code drives, [None] for a code without a case. *)
Definition flag_of (code : string) (m : move) : option bool :=
  if String.eqb code "KeyW" then Some (forward m)
  else if String.eqb code "KeyS" then Some (backward m)
  else if String.eqb code "KeyA" then Some (left m)
  else if String.eqb code "KeyD" then Some (right m)
  else if String.eqb code "Space" then Some (up m)
  else if String.eqb code "ShiftLeft" then Some (down m)
  else None.

(** [Number(b)] *)
Definition Number (b : bool) : Z := if b then 1 else 0.

(** Lines 123-124 and the [subVectors] of line 127, before the direction is
    normalised, rotated by the camera's yaw and scaled (those steps are
    floating-point and are not modelled). *)
Definition frontVector (m : move) : Z * Z * Z :=
  (0, 0, Number (backward m) - Number (forward m)).

Definition sideVector (m : move) : Z * Z * Z :=
  (Number (left m) - Number (right m), 0, 0).

Definition subVectors (a b : Z * Z * Z) : Z * Z * Z :=
  (a.1.1 - b.1.1, a.1.2 - b.1.2, a.2 - b.2).

Definition horizontalDir_raw (m : move) : Z * Z * Z :=
  subVectors (frontVector m) (sideVector m).

(** The factor of [speed] in line 130. *)
Definition vertical_factor (m : move) : Z := Number (up m) - Number (down m).
End Player.

(** ** The colour palette and its shortcuts in [App] *)

Module App.
(** [const COLORS = [...]] *)
Definition COLORS : list string :=
  ["#00ffff"; "#ff003c"; "#ccff00"; "#ff00ff"; "#ffff00"; "#ffffff"].

(** [parseInt(string)] with no radix.  White space is the ASCII part of
    [StrWhiteSpaceChar]; [None] is [NaN].  The result is the exact integer:
    the handler only compares it with 1 and 6, which rounding to a double
    does not affect. *)
Definition is_white_space (c : ascii) : bool :=
  let n := Z.of_nat (nat_of_ascii c) in
  ((9 <=? n) && (n <=? 13)) || (n =? 32).

Fixpoint skip_white_space (s : string) : string :=
  match s with
  | String c rest => if is_white_space c then skip_white_space rest else s
  | EmptyString => s
  end.

Definition digit_in (radix : Z) (c : ascii) : option Z :=
  match hex_digit c with
  | Some d => if d <? radix then Some d else None
  | None => None
  end.

(** The longest prefix of digits, accumulated from the left; [acc] is
    [None] until a digit has been read. *)
Fixpoint parse_digits (radix : Z) (s : string) (acc : option Z) : option Z :=
  match s with
  | EmptyString => acc
  | String c rest =>
      match digit_in radix c with
      | Some d =>
          parse_digits radix rest
            (Some (radix * match acc with Some a => a | None => 0 end + d))
      | None => acc
      end
  end.

Definition parseInt (s : string) : option Z :=
  let s1 := skip_white_space s in
  let '(sign, s2) :=
    match s1 with
    | String "-"%char r => (-1, r)
    | String "+"%char r => (1, r)
    | _ => (1, s1)
    end in
  let '(radix, s3) :=
    match s2 with
    | String "0"%char (String "x"%char r) => (16, r)
    | String "0"%char (String "X"%char r) => (16, r)
    | _ => (10, s2)
    end in
  option_map (Z.mul sign) (parse_digits radix s3 None).

(** The [keydown] handler of lines 280-285, on [e.key]:
    [if (key >= 1 && key <= 6) setSelectedColor(COLORS[key - 1])].  The
    guard keeps the index inside the table, so the read is never
    [undefined]. *)
Definition handleKeyDown (key : string) (s : store) : store :=
  match parseInt key with
  | Some k =>
      if (1 <=? k) && (k <=? 6) then
        match COLORS !! Z.to_nat (k - 1) with
        | Some c => setSelectedColor c s
        | None => s
        end
      else s
  | None => s
  end.

(** [onClick={() => setSelectedColor(color)}] of the swatch rendered for
    index [index] of [COLORS]; there is no swatch beyond the table. *)
Definition swatch_onClick (index : nat) (s : store) : store :=
  match COLORS !! index with
  | Some c => setSelectedColor c s
  | None => s
  end.

(** [selectedColor === color ? 'active' : '']: the swatches drawn active. *)
Definition active_swatches (s : store) : list nat :=
  map fst (List.filter (fun ic => String.eqb (selectedColor s) (snd ic))
                  (combine (seq 0 (length COLORS)) COLORS)).

(** What happens to the store while the application runs: a key shortcut, a
    swatch click, the initial load coming back, a local add, a remote
    insert notification. *)
Inductive event : Type :=
  | KeyPressed (key : string)
  | SwatchClicked (index : nat)
  | Loaded (r : select_response)
  | Op (o : add_op).

Definition on_event (w : world) (ev : event) : world :=
  match ev with
  | KeyPressed key => {| st := handleKeyDown key (st w); console := console w |}
  | SwatchClicked i => {| st := swatch_onClick i (st w); console := console w |}
  | Loaded r => initializeVoxels r w
  | Op o => apply_op w o
  end.

Definition run (evs : list event) (w : world) : world := fold_left on_event evs w.

(** The [console.error] call an event leads to, if any. *)
Definition errors_of (ev : event) : list log_entry :=
  match ev with
  | Loaded r =>
      match select_error r with
      | Some e => [ConsoleError "Error fetching voxels:" e]
      | None => []
      end
  | Op (LocalAdd _ _ _ (Some e)) => [ConsoleError "Error saving voxel:" e]
  | _ => []
  end.
End App.

(** * Properties of the store *)

Lemma same_cell_position (n v : Voxel.t) :
  same_cell n v = true <-> Voxel.position v = Voxel.position n.
Proof.
  unfold same_cell, Voxel.position.
  rewrite !andb_true_iff, !Z.eqb_eq.
  split.
  - intros [[-> ->] ->]. reflexivity.
  - intros E. injection E as -> -> ->. auto.
Qed.

Lemma occupied_iff (n : Voxel.t) (vs : list Voxel.t) :
  existsb (same_cell n) vs = true <-> Voxel.position n ∈ map Voxel.position vs.
Proof.
  rewrite existsb_exists, list_elem_of_In, in_map_iff.
  split; intros (v & Hv1 & Hv2); exists v.
  - apply same_cell_position in Hv2. auto.
  - split; [assumption | now apply same_cell_position].
Qed.

Lemma occupied_app (n : Voxel.t) (vs ws : list Voxel.t) :
  existsb (same_cell n) (vs ++ ws)
  = existsb (same_cell n) vs || existsb (same_cell n) ws.
Proof. apply existsb_app. Qed.

Lemma same_cell_refl (n : Voxel.t) : same_cell n n = true.
Proof. apply same_cell_position. reflexivity. Qed.

(** The local add appends whatever the grid holds. *)
Lemma addVoxel_voxels (x y z : Z) (e : option string) (w : world) :
  voxels (st (addVoxel x y z e w)) = voxels (st w) ++ [newVoxel x y z (st w)].
Proof. unfold addVoxel; simpl. destruct e; reflexivity. Qed.

(** The remote merge keeps cells distinct. *)
Lemma onInsert_unique (p : Voxel.t) (s : store) :
  unique_positions s -> unique_positions (onInsert p s).
Proof.
  unfold unique_positions, onInsert. intros Hs.
  destruct (existsb (same_cell p) (voxels s)) eqn:E; simpl; [assumption|].
  rewrite map_app. apply NoDup_app. split; [assumption|]. split.
  - intros c Hc Hin. apply list_elem_of_singleton in Hin. subst c.
    apply occupied_iff in Hc. congruence.
  - apply NoDup_singleton.
Qed.

Lemma remote_ops_unique (ops : list add_op) (w : world) :
  forallb is_remote ops = true ->
  unique_positions (st w) -> unique_positions (st (run_ops ops w)).
Proof.
  revert w. induction ops as [|o ops IH]; intros w Hr Hw; simpl in *; [assumption|].
  apply andb_true_iff in Hr as [Ho Hr].
  apply IH; [assumption|].
  destruct o as [x y z e|p]; [discriminate|]. simpl.
  now apply onInsert_unique.
Qed.

(** The local add at a cell that is taken always leaves two voxels there. *)
Lemma addVoxel_ignores_occupancy (x y z : Z) (e : option string) (w : world) :
  existsb (same_cell (newVoxel x y z (st w))) (voxels (st w)) = true ->
  ~ unique_positions (st (addVoxel x y z e w)).
Proof.
  intros Hocc Hnd. unfold unique_positions in Hnd.
  rewrite addVoxel_voxels, map_app in Hnd.
  apply NoDup_app in Hnd as (_ & Hdisj & _).
  apply occupied_iff in Hocc.
  apply (Hdisj _ Hocc). simpl. left.
Qed.

(** C1 (the code departs from the claim).  Uniqueness of cells under add
    operations: two local adds at the same cell, run from the empty store,
    leave two voxels at that cell; the second add is not a no-op. *)
Theorem addVoxel_occupied_cell_duplicates :
  let ops := [LocalAdd 0 0 0 None; LocalAdd 0 0 0 None] in
  let w1 := run_ops [LocalAdd 0 0 0 None] initial_world in
  let w2 := run_ops ops initial_world in
  map Voxel.position (voxels (st w1)) = [(0, 0, 0)]
  /\ map Voxel.position (voxels (st w2)) = [(0, 0, 0); (0, 0, 0)]
  /\ st w2 <> st w1
  /\ ~ unique_positions (st w2).
Proof.
  simpl. repeat split.
  - discriminate.
  - unfold unique_positions. simpl. intros Hnd.
    apply NoDup_cons in Hnd as [Hnotin _].
    apply Hnotin. left.
Qed.

(** The test of the callback is occupancy of the notified cell. *)
Lemma onInsert_free (p : Voxel.t) (s : store) :
  Voxel.position p ∉ map Voxel.position (voxels s) ->
  onInsert p s = {| voxels := voxels s ++ [p]; selectedColor := selectedColor s |}.
Proof.
  intros Hfree. unfold onInsert.
  destruct (existsb (same_cell p) (voxels s)) eqn:E; [|reflexivity].
  apply occupied_iff in E. contradiction.
Qed.

Lemma onInsert_occupied (p : Voxel.t) (s : store) :
  Voxel.position p ∈ map Voxel.position (voxels s) -> onInsert p s = s.
Proof.
  intros Hocc. unfold onInsert.
  apply occupied_iff in Hocc. rewrite Hocc. reflexivity.
Qed.

(** C5 (counterexample).  A notification for a cell that the grid already
    holds: neither the first nor the second application changes the grid,
    so the two together change it not once but never. *)
Lemma onInsert_twice_on_occupied_cell :
  let s := {| voxels := [Voxel.mk 0 0 0 (JStr "#00ffff") JUndefined];
              selectedColor := "#00ffff" |} in
  let p := Voxel.mk 0 0 0 (JStr "#ff003c") (JNum 9) in
  onInsert p s = s
  /\ onInsert p (onInsert p s) = s
  /\ p ∉ voxels (onInsert p (onInsert p s)).
Proof.
  simpl. split; [reflexivity|]. split; [reflexivity|].
  intros Hin. apply list_elem_of_singleton in Hin. discriminate.
Qed.

(** C5 (as amended).  Applying the same insert notification twice changes
    the grid at most once.  The second application always leaves the store
    as the first left it.  The first appends the notified voxel when no
    voxel of the grid has its (x, y, z), and changes nothing when one
    has. *)
Theorem onInsert_twice (p : Voxel.t) (s : store) :
  onInsert p (onInsert p s) = onInsert p s
  /\ (Voxel.position p ∉ map Voxel.position (voxels s) ->
      onInsert p s = {| voxels := voxels s ++ [p]; selectedColor := selectedColor s |}
      /\ onInsert p s <> s)
  /\ (Voxel.position p ∈ map Voxel.position (voxels s) -> onInsert p s = s).
Proof.
  split; [|split].
  - destruct (decide (Voxel.position p ∈ map Voxel.position (voxels s))) as [Hocc|Hfree].
    + rewrite (onInsert_occupied p s Hocc). now apply onInsert_occupied.
    + rewrite (onInsert_free p s Hfree). apply onInsert_occupied. simpl.
      rewrite map_app. apply elem_of_app. right. simpl. apply list_elem_of_here.
  - intros Hfree. split; [now apply onInsert_free|].
    rewrite (onInsert_free p s Hfree). intros E.
    apply (f_equal (fun t => length (voxels t))) in E. simpl in E.
    rewrite length_app in E. simpl in E. lia.
  - apply onInsert_occupied.
Qed.

Lemma onInsert_twice_witness :
  let s := {| voxels := [Voxel.mk 0 0 0 (JStr "#00ffff") JUndefined];
              selectedColor := "#00ffff" |} in
  let p := Voxel.mk 0 1 0 (JStr "#ff003c") (JNum 9) in
  let q := Voxel.mk 0 0 0 (JStr "#ff003c") (JNum 10) in
  voxels (onInsert p s) = voxels s ++ [p]
  /\ onInsert p (onInsert p s) = onInsert p s
  /\ onInsert q s = s.
Proof.
  intros s p q.
  destruct (onInsert_twice p s) as (Hidem & Hfree & _).
  destruct (onInsert_twice q s) as (_ & _ & Hocc).
  split; [|split].
  - destruct Hfree as [E _].
    + simpl. intros Hin. apply list_elem_of_singleton in Hin. discriminate.
    + rewrite E. reflexivity.
  - exact Hidem.
  - apply Hocc. simpl. apply list_elem_of_here.
Defined.

(** C8.  A local add whose external write fails: the store is the one the
    optimistic append produced, the failure is on the console, and the
    continuation that handles the failure never touches the store, whatever
    ran while the write was pending. *)
Theorem addVoxel_failed_write_not_rolled_back
        (x y z : Z) (e : string) (w : world) :
  st (addVoxel x y z (Some e) w) = fst (addVoxel_optimistic x y z (st w))
  /\ voxels (st (addVoxel x y z (Some e) w))
     = voxels (st w) ++ [Voxel.mk x y z (JStr (selectedColor (st w))) JUndefined]
  /\ console (addVoxel x y z (Some e) w)
     = console w ++ [ConsoleError "Error saving voxel:" e]
  /\ (forall w' : world, st (addVoxel_settled (Some e) w') = st w').
Proof. repeat split. Qed.

(** * Properties of the projection *)


(** ** Storing integers in single precision *)









Section ProjectionFacts.
Context `{ThreeColor}.

Lemma new_InstancedMesh_wf (n : nat) : mesh_wf (new_InstancedMesh n).
Proof. unfold mesh_wf, color_slots. simpl. now rewrite !length_replicate. Qed.

Lemma color_slots_setColorAt (i : nat) (c : rgb) (mesh : InstancedMesh) :
  color_slots (setColorAt i c mesh) = <[i := c]> (color_slots mesh).
Proof. reflexivity. Qed.

Lemma color_slots_setMatrixAt (i : nat) (m : Matrix4) (mesh : InstancedMesh) :
  color_slots (setMatrixAt i m mesh) = color_slots mesh.
Proof. unfold color_slots. simpl. now rewrite length_insert. Qed.

(** One iteration of the loop keeps the mesh well formed and its capacity. *)
Lemma iteration_wf (i : nat) (m : Matrix4) (c : rgb) (mesh : InstancedMesh) :
  mesh_wf mesh -> mesh_wf (setColorAt i c (setMatrixAt i m mesh)).
Proof.
  unfold mesh_wf. intros Hwf.
  rewrite color_slots_setColorAt, color_slots_setMatrixAt, length_insert.
  simpl. now rewrite length_insert.
Qed.

Lemma forEach_voxel_count (vs : list Voxel.t) :
  forall i mesh h, count (forEach_voxel i vs mesh h).1 = count mesh.
Proof.
  induction vs as [|v vs IH]; intros i mesh h; simpl; [reflexivity|].
  rewrite IH. reflexivity.
Qed.

Lemma forEach_voxel_capacity (vs : list Voxel.t) :
  forall i mesh h,
    length (instanceMatrix (forEach_voxel i vs mesh h).1)
    = length (instanceMatrix mesh).
Proof.
  induction vs as [|v vs IH]; intros i mesh h; simpl; [reflexivity|].
  rewrite IH. simpl. apply length_insert.
Qed.

Lemma forEach_voxel_color_capacity (vs : list Voxel.t) :
  forall i mesh h,
    length (color_slots (forEach_voxel i vs mesh h).1)
    = length (color_slots mesh).
Proof.
  induction vs as [|v vs IH]; intros i mesh h; simpl; [reflexivity|].
  rewrite IH, color_slots_setColorAt, length_insert.
  apply (f_equal (@length rgb)), color_slots_setMatrixAt.
Qed.

Lemma forEach_voxel_helper (vs : list Voxel.t) :
  forall i mesh h, (forEach_voxel i vs mesh h).2 = helper_after h vs.
Proof.
  induction vs as [|v vs IH]; intros i mesh h; simpl; [reflexivity|].
  apply IH.
Qed.

(** Slots below the running index are left alone. *)
Lemma forEach_voxel_below (vs : list Voxel.t) :
  forall i mesh h j, (j < i)%nat ->
    instanceMatrix (forEach_voxel i vs mesh h).1 !! j = instanceMatrix mesh !! j
    /\ color_slots (forEach_voxel i vs mesh h).1 !! j = color_slots mesh !! j.
Proof.
  induction vs as [|v vs IH]; intros i mesh h j Hj; simpl; [split; reflexivity|].
  destruct (IH (S i) (setColorAt i (Color_set h (color_or_default v))
                        (setMatrixAt i (updateMatrix (Voxel.x v) (Voxel.y v) (Voxel.z v)) mesh))
               (Color_set h (color_or_default v)) j) as [Hm Hc]; [lia|].
  rewrite Hm, Hc, color_slots_setColorAt, color_slots_setMatrixAt. simpl.
  split; apply list_lookup_insert_ne; lia.
Qed.

(** The matrix slot of the [k]-th voxel of the loop, when the mesh has it. *)
Lemma forEach_voxel_matrix_at (vs : list Voxel.t) :
  forall i mesh h k v,
    vs !! k = Some v ->
    (i + k < length (instanceMatrix mesh))%nat ->
    instanceMatrix (forEach_voxel i vs mesh h).1 !! (i + k)%nat
    = Some (stored (updateMatrix (Voxel.x v) (Voxel.y v) (Voxel.z v))).
Proof.
  induction vs as [|u vs IH]; intros i mesh h k v Hk Hcap; [discriminate|].
  simpl.
  set (mesh2 := setColorAt i (Color_set h (color_or_default u))
                  (setMatrixAt i (updateMatrix (Voxel.x u) (Voxel.y u) (Voxel.z u)) mesh)).
  destruct k as [|k]; simpl in Hk.
  - injection Hk as ->. rewrite Nat.add_0_r in *.
    destruct (forEach_voxel_below vs (S i) mesh2 (Color_set h (color_or_default v)) i)
      as [Hm _]; [lia|].
    rewrite Hm. simpl. now apply list_lookup_insert_eq.
  - replace (i + S k)%nat with (S i + k)%nat by lia.
    apply IH; [assumption|]. simpl. rewrite length_insert. lia.
Qed.

(** Its colour slot: what the shared helper holds after [set] on the
    voxel's colour, or on the default when it has none. *)
Lemma forEach_voxel_color_at (vs : list Voxel.t) :
  forall i mesh h k v,
    vs !! k = Some v ->
    (i + k < length (color_slots mesh))%nat ->
    color_slots (forEach_voxel i vs mesh h).1 !! (i + k)%nat
    = Some (Color_set (helper_after h (take k vs)) (color_or_default v)).
Proof.
  induction vs as [|u vs IH]; intros i mesh h k v Hk Hcap; [discriminate|].
  simpl.
  set (mesh2 := setColorAt i (Color_set h (color_or_default u))
                  (setMatrixAt i (updateMatrix (Voxel.x u) (Voxel.y u) (Voxel.z u)) mesh)).
  assert (Hslots : color_slots mesh2
                   = <[i := Color_set h (color_or_default u)]> (color_slots mesh)).
  { unfold mesh2. now rewrite color_slots_setColorAt, color_slots_setMatrixAt. }
  destruct k as [|k]; simpl in Hk.
  - injection Hk as ->. rewrite Nat.add_0_r in *.
    destruct (forEach_voxel_below vs (S i) mesh2 (Color_set h (color_or_default v)) i)
      as [_ Hc]; [lia|].
    rewrite Hc, Hslots. simpl. now apply list_lookup_insert_eq.
  - replace (i + S k)%nat with (S i + k)%nat by lia.
    apply (IH (S i) mesh2 (Color_set h (color_or_default u)) k v); [assumption|].
    rewrite Hslots, length_insert. lia.
Qed.


(** A recognised style string sets the helper to its colour. *)
Lemma Color_set_style (h c : rgb) (s : string) :
  setStyle s = Some c -> Color_set h (JStr s) = c.
Proof. intros Hs. simpl. rewrite Hs. reflexivity. Qed.
End ProjectionFacts.

(** The effect always returns: it sets [count] and runs the loop. *)
Lemma VoxelInstances_effect_returns `{ThreeColor}
      (mesh : InstancedMesh) (colorHelper : rgb) (vs : list Voxel.t) :
  VoxelInstances_effect (Some mesh) colorHelper vs
  = Returned (Some (forEach_voxel 0 vs (set_count (length vs) mesh) colorHelper).1,
              helper_after colorHelper vs).
Proof.
  unfold VoxelInstances_effect.
  rewrite <- (forEach_voxel_helper vs 0%nat (set_count (length vs) mesh) colorHelper).
  destruct (forEach_voxel 0 vs (set_count (length vs) mesh) colorHelper); reflexivity.
Qed.







(** * Properties of the interaction *)

Lemma Math_round_nearest (q : Q) : nearest_integer q (Math_round q).
Proof.
  unfold nearest_integer, Math_round.
  pose proof (Qfloor_le (q + (1 # 2))) as Hle.
  pose proof (Qlt_floor (q + (1 # 2))) as Hlt.
  rewrite inject_Z_plus in Hlt.
  change (inject_Z 1) with 1%Q in Hlt.
  split; lra.
Qed.

(** C3 (counterexample).  The hit point (0.5, 0.5, 1.0) with normal
    (0, 0, 1) does not resolve to (0, 0, 1): the offset point is
    (0.5, 0.5, 1.5) and every tie rounds up. *)
Lemma targetCell_example_is_not_0_0_1 :
  targetCell (V3 (1 # 2) (1 # 2) 1) (V3 0 0 1) = (1, 1, 2)
  /\ targetCell (V3 (1 # 2) (1 # 2) 1) (V3 0 0 1) <> (0, 0, 1)
  /\ targetCell_double (double_0_5, double_0_5, double_1) (double_0, double_0, double_1)
     = Some (1, 1, 2).
Proof. split; [reflexivity | split; [discriminate | reflexivity]]. Qed.

(** A frame hovering a remotely inserted voxel with id 7, then a frame in
    which the ray hits nothing: the candidate is gone but the stored hover
    id is still 7. *)
Lemma no_hit_keeps_hovered_id :
  let v := Voxel.mk 0 0 0 (JStr "#ff00ff") (JNum 7) in
  let ui1 := useFrame_callback [v] [hit_instance 0] initial_interaction in
  let ui2 := useFrame_callback [v] [] ui1 in
  ghost ui2 = None
  /\ hoveredVoxelId ui2 = JNum 7
  /\ hoveredVoxelId ui2 <> JNull
  /\ hoveredVoxelId ui2 <> JUndefined.
Proof. simpl. repeat split; discriminate. Qed.

(** What the branch of lines 194-197 does to the three cells, and what a
    press can do right after it. *)
Lemma no_hit_clears_candidate_and_hover_flag
        (voxels : list Voxel.t) (ui : interaction) :
  let ui' := useFrame_callback voxels [] ui in
  ghost ui' = None
  /\ isHoveringVoxel ui' = false
  /\ hoveredVoxelId ui' = hoveredVoxelId ui
  /\ (forall e : mouse_event, handleMouseDown_calls ui' e = [])
  /\ (forall (e : mouse_event) (s : store), handleMouseDown ui' e s = Returned s).
Proof. simpl. repeat split. Qed.

(** C9.  A press of the primary button without Alt, with a candidate cell
    from the last frame, appends a voxel at exactly that cell in the
    selected colour; with no candidate, any press returns with the store
    untouched. *)
Theorem add_intent_uses_cached_candidate
        (gx gy gz : Z) (hovering : bool) (hovered : jsval)
        (e : mouse_event) (s : store) :
  handleMouseDown
    {| ghost := Some (gx, gy, gz); isHoveringVoxel := hovering; hoveredVoxelId := hovered |}
    {| button := 0; altKey := false |} s
  = Returned {| voxels := voxels s ++ [Voxel.mk gx gy gz (JStr (selectedColor s)) JUndefined];
                selectedColor := selectedColor s |}
  /\ handleMouseDown
       {| ghost := None; isHoveringVoxel := hovering; hoveredVoxelId := hovered |} e s
     = Returned s.
Proof. split; reflexivity. Qed.

(** C2 (the code departs from the claim).  The store has no remove action,
    and in the end-to-end scenario the Remove press on the hovered voxel
    issues no call: the voxel placed at (2, 3, -1) has no id, the grid still
    holds it and the projection still exposes one instance.  Where a
    hovered voxel does carry an id, the press calls a store key that is
    undefined and throws, the grid again unchanged. *)
Theorem remove_intent_removes_nothing :
  removeVoxel = None
  /\ voxels scenario_store1 = [Voxel.mk 2 3 (-1) (JStr "#00ffff") JUndefined]
  /\ isHoveringVoxel scenario_ui2 = true
  /\ hoveredVoxelId scenario_ui2 = JUndefined
  /\ handleMouseDown_calls scenario_ui2 press_remove = []
  /\ scenario_end = Returned scenario_store1
  /\ length (voxels (final scenario_end)) = 1%nat
  /\ option_map count
       (final (VoxelInstances_effect (Some (new_InstancedMesh MAX_INSTANCES)) white
                 (voxels (final scenario_end)))).1 = Some 1%nat
  /\ (forall (i : jsval) (s : store),
        do_call (Call_removeVoxel i) s
        = Threw "TypeError: removeVoxel is not a function" s)
  /\ (forall (g : Z * Z * Z) (i : jsval) (s : store),
        handleMouseDown {| ghost := Some g; isHoveringVoxel := true; hoveredVoxelId := i |}
                        press_remove s
        = if truthy i
          then Threw "TypeError: removeVoxel is not a function" s
          else Returned s).
Proof.
  split; [reflexivity|].
  split; [reflexivity|].
  split; [reflexivity|].
  split; [reflexivity|].
  split; [reflexivity|].
  split; [reflexivity|].
  split; [reflexivity|].
  split.
  { rewrite VoxelInstances_effect_returns. cbn [final fst option_map].
    rewrite forEach_voxel_count. reflexivity. }
  split; [reflexivity|].
  intros [[gx gy] gz] i s.
  unfold handleMouseDown, handleMouseDown_calls. simpl.
  destruct (truthy i); reflexivity.
Qed.

(** * Where identities come from *)

Lemma voxel_of_row_no_id (rows : list selected_row) :
  Forall (fun v => Voxel.id v = JUndefined) (map voxel_of_row rows).
Proof. induction rows as [|r rows IH]; simpl; constructor; auto. Qed.

(** One event adds to the grid only voxels without an id, unless it is a
    remote insert, which adds its payload. *)
Lemma apply_event_origin (ev : store_event) (w : world) (v : Voxel.t) :
  v ∈ voxels (st (apply_event w ev)) ->
  v ∈ voxels (st w) \/ Voxel.id v = JUndefined \/ ev = Added (RemoteInsert v).
Proof.
  destruct ev as [r|c|[x y z e|p]]; simpl.
  - unfold initializeVoxels. destruct (select_error r); simpl; [auto|].
    destruct (data r) as [rows|]; simpl.
    + intros Hin. right; left.
      pose proof (voxel_of_row_no_id rows) as Hall.
      rewrite Forall_forall in Hall. apply Hall. exact Hin.
    + intros Hin. apply elem_of_nil in Hin. contradiction.
  - auto.
  - rewrite addVoxel_voxels. intros Hin.
    apply elem_of_app in Hin as [Hin|Hin]; [auto|].
    apply list_elem_of_singleton in Hin. subst v. right; left. reflexivity.
  - unfold onInsert. destruct (existsb (same_cell p) (voxels (st w))); simpl; [auto|].
    intros Hin. apply elem_of_app in Hin as [Hin|Hin]; [auto|].
    apply list_elem_of_singleton in Hin. subst v. right; right. reflexivity.
Qed.

Lemma run_events_origin (evs : list store_event) :
  forall (w : world) (v : Voxel.t),
    v ∈ voxels (st (run_events evs w)) ->
    v ∈ voxels (st w) \/ Voxel.id v = JUndefined \/ Added (RemoteInsert v) ∈ evs.
Proof.
  induction evs as [|ev evs IH]; intros w v Hin; simpl in *; [auto|].
  apply IH in Hin as [Hin|[Hid|Hev]].
  - apply apply_event_origin in Hin as [Hin|[Hid| ->]]; [auto|auto|].
    right; right. left.
  - auto.
  - right; right. now right.
Qed.

(** Hovering a voxel that has no id resolves the hover id to undefined. *)
Lemma hover_without_id (voxels : list Voxel.t) (i : nat) (v : Voxel.t)
      (hit : intersection) (rest : list intersection) (ui : interaction) :
  voxels !! i = Some v ->
  Voxel.id v = JUndefined ->
  object_name hit = "voxels" ->
  instanceId hit = Some i ->
  hoveredVoxelId (useFrame_callback voxels (hit :: rest) ui) = JUndefined.
Proof.
  intros Hv Hid Hname Hinst. unfold useFrame_callback.
  rewrite Hname, Hinst, Hv. simpl. exact Hid.
Qed.

(** A press never issues a remove call for a falsy hover id. *)
Lemma no_remove_call_without_id (ui : interaction) (e : mouse_event) (k : jsval) :
  truthy (hoveredVoxelId ui) = false ->
  Call_removeVoxel k ∉ handleMouseDown_calls ui e.
Proof.
  intros Hfalsy Hin. unfold handleMouseDown_calls in Hin.
  destruct (ghost ui) as [[[gx gy] gz]|]; [|now apply elem_of_nil in Hin].
  rewrite Hfalsy, andb_false_r, app_nil_r in Hin.
  destruct ((button e =? 0) && negb (altKey e)); [|now apply elem_of_nil in Hin].
  apply list_elem_of_singleton in Hin. discriminate.
Qed.

(** C10.  The rows of the initial load and the voxel built by the local add
    carry no id; over any run of store events from the initial store, a
    voxel of the grid that carries an id is the payload of a remote insert
    of that run; hovering a voxel without an id resolves the hover id to
    undefined, and then no press issues a remove call. *)
Theorem identity_only_from_remote_inserts :
  (forall rows : list selected_row,
      Forall (fun v => Voxel.id v = JUndefined) (map voxel_of_row rows))
  /\ (forall (x y z : Z) (s : store), Voxel.id (newVoxel x y z s) = JUndefined)
  /\ (forall (evs : list store_event) (v : Voxel.t),
        v ∈ voxels (st (run_events evs initial_world)) ->
        Voxel.id v <> JUndefined ->
        Added (RemoteInsert v) ∈ evs)
  /\ (forall (voxels : list Voxel.t) (i : nat) (v : Voxel.t)
             (hit : intersection) (rest : list intersection)
             (ui : interaction) (e : mouse_event) (k : jsval),
        voxels !! i = Some v ->
        Voxel.id v = JUndefined ->
        object_name hit = "voxels" ->
        instanceId hit = Some i ->
        let ui' := useFrame_callback voxels (hit :: rest) ui in
        hoveredVoxelId ui' = JUndefined
        /\ Call_removeVoxel k ∉ handleMouseDown_calls ui' e)
  /\ (exists (p : Voxel.t) (e : mouse_event),
        let s := onInsert p initial_store in
        let ui' := useFrame_callback (voxels s) [hit_instance 0] initial_interaction in
        Voxel.id p = JNum 7
        /\ voxels s = [p]
        /\ handleMouseDown_calls ui' e = [Call_removeVoxel (JNum 7)]).
Proof.
  split; [apply voxel_of_row_no_id|].
  split; [reflexivity|].
  split.
  { intros evs v Hin Hid.
    apply run_events_origin in Hin as [Hin|[Hundef|Hev]].
    - apply elem_of_nil in Hin. contradiction.
    - contradiction.
    - exact Hev. }
  split.
  { intros voxels i v hit rest ui e k Hv Hid Hname Hinst ui'.
    assert (Hh : hoveredVoxelId ui' = JUndefined)
      by (eapply hover_without_id; eassumption).
    split; [exact Hh|].
    apply no_remove_call_without_id. rewrite Hh. reflexivity. }
  exists (Voxel.mk 2 3 (-1) (JStr "#ff003c") (JNum 7)), press_remove.
  repeat split.
Qed.

Lemma identity_only_from_remote_inserts_witness :
  let v := Voxel.mk 2 3 (-1) (JStr "#00ffff") JUndefined in
  let ui' := useFrame_callback [v] [hit_instance 0] initial_interaction in
  hoveredVoxelId ui' = JUndefined
  /\ Call_removeVoxel JUndefined ∉ handleMouseDown_calls ui' press_remove.
Proof.
  exact (proj1 (proj2 (proj2 (proj2 identity_only_from_remote_inserts)))
           [Voxel.mk 2 3 (-1) (JStr "#00ffff") JUndefined] 0%nat _
           (hit_instance 0) [] initial_interaction press_remove JUndefined
           eq_refl eq_refl eq_refl eq_refl).
Defined.

(** * Further properties of the store *)

Lemma apply_op_appends (o : add_op) (w : world) :
  exists tail : list Voxel.t,
    voxels (st (apply_op w o)) = voxels (st w) ++ tail /\ (length tail <= 1)%nat.
Proof.
  destruct o as [x y z e|p]; simpl.
  - rewrite addVoxel_voxels. eexists. split; [reflexivity|]. simpl. lia.
  - unfold onInsert. destruct (existsb (same_cell p) (voxels (st w))); simpl.
    + exists []. rewrite app_nil_r. split; [reflexivity|]. simpl. lia.
    + eexists. split; [reflexivity|]. simpl. lia.
Qed.

Lemma run_ops_appends (ops : list add_op) :
  forall w : world,
    exists tail : list Voxel.t,
      voxels (st (run_ops ops w)) = voxels (st w) ++ tail
      /\ (length tail <= length ops)%nat.
Proof.
  induction ops as [|o ops IH]; intros w; simpl.
  - exists []. rewrite app_nil_r. split; [reflexivity|]. simpl. lia.
  - destruct (apply_op_appends o w) as (t1 & E1 & L1).
    destruct (IH (apply_op w o)) as (t2 & E2 & L2).
    exists (t1 ++ t2). rewrite E2, E1, <- app_assoc. split; [reflexivity|].
    rewrite length_app. lia.
Qed.

(** X1.  Adds only append: over any run of local adds and remote inserts
    the grid keeps what it had as a prefix, so every voxel keeps its index,
    and it grows by at most one voxel per operation. *)
Theorem add_ops_keep_indices (ops : list add_op) (w : world) :
  exists tail : list Voxel.t,
    voxels (st (run_ops ops w)) = voxels (st w) ++ tail
    /\ (length tail <= length ops)%nat
    /\ (forall (i : nat) (v : Voxel.t),
          voxels (st w) !! i = Some v ->
          voxels (st (run_ops ops w)) !! i = Some v).
Proof.
  destruct (run_ops_appends ops w) as (tail & E & L).
  exists tail. split; [exact E|]. split; [exact L|].
  intros i v Hi. rewrite E. apply lookup_app_l_Some. exact Hi.
Qed.

(** X2.  Remote inserts alone keep the cells of the grid distinct: from a
    grid without two voxels in one cell, any run of insert notifications
    ends in such a grid. *)
Theorem remote_inserts_keep_cells_distinct (ps : list Voxel.t) (w : world) :
  unique_positions (st w) ->
  unique_positions (st (run_ops (map RemoteInsert ps) w)).
Proof.
  revert w. induction ps as [|p ps IH]; intros w Hw; simpl; [exact Hw|].
  apply IH. simpl. apply onInsert_unique. exact Hw.
Qed.

Lemma remote_inserts_keep_cells_distinct_witness :
  unique_positions
    (st (run_ops (map RemoteInsert
                    [Voxel.mk 0 0 0 (JStr "#ff003c") (JNum 1);
                     Voxel.mk 0 0 0 (JStr "#ccff00") (JNum 2);
                     Voxel.mk 0 1 0 JNull (JNum 3)])
                 initial_world)).
Proof.
  apply remote_inserts_keep_cells_distinct. simpl. apply NoDup_nil. exact I.
Defined.

(** X3.  The echo of a local add is dropped: after [addVoxel x y z], an
    insert notification for the same cell leaves the store as it was, so
    the voxel at that cell stays the local object, with the locally
    selected colour and without the id that the notification carries. *)
Theorem echo_of_local_add_is_dropped (x y z : Z) (s : store) (p : Voxel.t) :
  Voxel.position p = (x, y, z) ->
  let s1 := fst (addVoxel_optimistic x y z s) in
  onInsert p s1 = s1
  /\ last (voxels (onInsert p s1))
     = Some (Voxel.mk x y z (JStr (selectedColor s)) JUndefined).
Proof.
  intros Hp s1.
  assert (E : onInsert p s1 = s1).
  { unfold onInsert. subst s1. simpl. rewrite occupied_app. simpl.
    replace (same_cell p (newVoxel x y z s)) with true.
    - rewrite orb_true_r. reflexivity.
    - symmetry. apply same_cell_position. rewrite Hp. reflexivity. }
  split; [exact E|]. rewrite E. subst s1. simpl. apply last_snoc.
Qed.

Lemma echo_of_local_add_is_dropped_witness :
  let s1 := fst (addVoxel_optimistic 2 3 (-1) initial_store) in
  onInsert (Voxel.mk 2 3 (-1) (JStr "#00ffff") (JNum 41)) s1 = s1
  /\ last (voxels (onInsert (Voxel.mk 2 3 (-1) (JStr "#00ffff") (JNum 41)) s1))
     = Some (Voxel.mk 2 3 (-1) (JStr "#00ffff") JUndefined).
Proof.
  exact (echo_of_local_add_is_dropped 2 3 (-1) initial_store
           (Voxel.mk 2 3 (-1) (JStr "#00ffff") (JNum 41)) eq_refl).
Defined.

Lemma on_event_console (ev : App.event) (w : world) :
  console (App.on_event w ev) = console w ++ App.errors_of ev.
Proof.
  destruct ev as [key|i|r|[x y z [e|]|p]]; simpl;
    try (rewrite app_nil_r; reflexivity).
  - unfold initializeVoxels. destruct (select_error r); simpl;
      [reflexivity | rewrite app_nil_r; reflexivity].
  - reflexivity.
Qed.

(** X5.  The console gets exactly one entry for each load that failed and
    each local add whose write failed, in the order of the events, and
    nothing else: key shortcuts, swatch clicks, successful loads and writes
    and remote inserts log nothing. *)
Theorem console_is_the_failures (evs : list App.event) (w : world) :
  console (App.run evs w) = console w ++ flat_map App.errors_of evs.
Proof.
  revert w. induction evs as [|ev evs IH]; intros w; simpl.
  - rewrite app_nil_r. reflexivity.
  - unfold App.run in IH. rewrite IH, on_event_console, <- app_assoc. reflexivity.
Qed.

(** * Further properties of the interaction *)

Lemma Math_round_unique (q : Q) (n : Z) : nearest_integer q n -> Math_round q = n.
Proof.
  unfold nearest_integer, Math_round. intros [Hlo Hhi].
  pose proof (Qfloor_le (q + (1 # 2))) as Hle.
  pose proof (Qlt_floor (q + (1 # 2))) as Hlt.
  rewrite inject_Z_plus in Hlt. change (inject_Z 1) with 1%Q in Hlt.
  assert (H1 : (inject_Z (Qfloor (q + (1 # 2))) < inject_Z (n + 1))%Q).
  { rewrite inject_Z_plus. change (inject_Z 1) with 1%Q. lra. }
  assert (H2 : (inject_Z n < inject_Z (Qfloor (q + (1 # 2)) + 1))%Q).
  { rewrite inject_Z_plus. change (inject_Z 1) with 1%Q. lra. }
  rewrite <- Zlt_Qlt in H1, H2. lia.
Qed.

Lemma Math_round_on_face_axis (c n : Z) (p : Q) :
  (n = -1 \/ n = 0 \/ n = 1) ->
  on_face_axis c n p ->
  Math_round (p + inject_Z n * (1 # 2)) = c + n.
Proof.
  intros Hn Hp. apply Math_round_unique. unfold nearest_integer.
  rewrite inject_Z_plus.
  destruct Hn as [-> | [-> | ->]]; unfold on_face_axis in Hp; simpl in Hp.
  - change (inject_Z (-1)) with (-1 # 1)%Q in *. rewrite Hp. split; lra.
  - change (inject_Z 0) with (0 # 1)%Q. destruct Hp as [Hlo Hhi]. split; lra.
  - change (inject_Z 1) with (1 # 1)%Q in *. rewrite Hp. split; lra.
Qed.

(** X6.  A hit on a face of the unit voxel at an integer cell proposes the
    neighbouring cell across that face: the cell moved by the face's
    normal.  (On the upper edge of a face the tie rounds up to a diagonal
    neighbour; that edge is excluded.) *)
Theorem targetCell_is_adjacent_cell (c : Z * Z * Z) (f : face) (p : Vector3) :
  on_face c f p ->
  targetCell p (face_unit_normal f)
  = (c.1.1 + (face_direction f).1.1,
     c.1.2 + (face_direction f).1.2,
     c.2 + (face_direction f).2).
Proof.
  destruct c as [[cx cy] cz]. unfold on_face, targetCell, face_unit_normal.
  destruct (face_direction f) as [[nx ny] nz] eqn:Ef.
  assert (Hn : (nx = -1 \/ nx = 0 \/ nx = 1) /\ (ny = -1 \/ ny = 0 \/ ny = 1)
               /\ (nz = -1 \/ nz = 0 \/ nz = 1)).
  { destruct f; injection Ef as <- <- <-; lia. }
  destruct Hn as (Hx & Hy & Hz). intros (Px & Py & Pz). simpl.
  rewrite (Math_round_on_face_axis cx nx), (Math_round_on_face_axis cy ny),
    (Math_round_on_face_axis cz nz); auto.
Qed.

Lemma targetCell_is_adjacent_cell_witness :
  targetCell (V3 (9 # 4) (11 # 4) (-3 # 2)) (face_unit_normal NegZ) = (2, 3, -2).
Proof.
  apply (targetCell_is_adjacent_cell (2, 3, -1) NegZ (V3 (9 # 4) (11 # 4) (-3 # 2))).
  unfold on_face, on_face_axis. simpl. unfold inject_Z. repeat split; lra.
Defined.



(** X9.  A hit on the voxel batch whose instance index resolves to no voxel
    of the array ([instanceId] undefined, or at or beyond the array's
    length) sets the hovering flag and keeps the hover id of the previous
    frame; a Remove press then passes that earlier id to [removeVoxel]. *)
Theorem unresolved_instance_keeps_previous_id
        (voxels0 : list Voxel.t) (hit : intersection) (rest : list intersection)
        (ui : interaction) :
  object_name hit = "voxels" ->
  match instanceId hit with
  | Some i => (length voxels0 <= i)%nat
  | None => True
  end ->
  let ui' := useFrame_callback voxels0 (hit :: rest) ui in
  isHoveringVoxel ui' = true
  /\ hoveredVoxelId ui' = hoveredVoxelId ui
  /\ handleMouseDown_calls ui' press_remove
     = if truthy (hoveredVoxelId ui) then [Call_removeVoxel (hoveredVoxelId ui)] else [].
Proof.
  intros Hname Hinst ui'.
  assert (E : ui' = {| ghost := Some (targetCell (point hit) (face_normal hit));
                       isHoveringVoxel := true;
                       hoveredVoxelId := hoveredVoxelId ui |}).
  { subst ui'. unfold useFrame_callback. rewrite Hname. simpl.
    destruct (instanceId hit) as [i|]; [|reflexivity].
    rewrite (lookup_ge_None_2 voxels0 i Hinst). reflexivity. }
  rewrite E. cbn [isHoveringVoxel hoveredVoxelId].
  split; [reflexivity|]. split; [reflexivity|].
  unfold handleMouseDown_calls. cbn [isHoveringVoxel hoveredVoxelId ghost].
  destruct (targetCell (point hit) (face_normal hit)) as [[tx ty] tz].
  simpl. reflexivity.
Qed.

Lemma unresolved_instance_keeps_previous_id_witness :
  let ui := {| ghost := None; isHoveringVoxel := false; hoveredVoxelId := JNum 7 |} in
  let ui' := useFrame_callback [Voxel.mk 0 0 0 JNull JUndefined] [hit_instance 1] ui in
  isHoveringVoxel ui' = true
  /\ hoveredVoxelId ui' = JNum 7
  /\ handleMouseDown_calls ui' press_remove = [Call_removeVoxel (JNum 7)].
Proof.
  apply (unresolved_instance_keeps_previous_id
           [Voxel.mk 0 0 0 JNull JUndefined] (hit_instance 1) []
           {| ghost := None; isHoveringVoxel := false; hoveredVoxelId := JNum 7 |}).
  - reflexivity.
  - simpl. lia.
Defined.

(** X10.  What a press can do to the store: it makes at most one store
    call; a button other than the primary one makes none; the selected
    colour is never changed; the grid is never shortened or reordered and
    gains at most one voxel; and when the handler throws the store is as it
    was. *)
Theorem press_changes_at_most_one_voxel (ui : interaction) (e : mouse_event) (s : store) :
  (length (handleMouseDown_calls ui e) <= 1)%nat
  /\ (button e <> 0 -> handleMouseDown ui e s = Returned s)
  /\ selectedColor (final (handleMouseDown ui e s)) = selectedColor s
  /\ (exists tail : list Voxel.t,
        voxels (final (handleMouseDown ui e s)) = voxels s ++ tail
        /\ (length tail <= 1)%nat)
  /\ (threw (handleMouseDown ui e s) = true -> final (handleMouseDown ui e s) = s).
Proof.
  unfold handleMouseDown, handleMouseDown_calls.
  destruct (ghost ui) as [[[gx gy] gz]|].
  2:{ simpl. repeat split; try lia; try discriminate.
      exists []. rewrite app_nil_r. split; [reflexivity | simpl; lia]. }
  destruct (button e =? 0) eqn:Hb.
  2:{ simpl. repeat split; try lia; try discriminate.
      exists []. rewrite app_nil_r. split; [reflexivity | simpl; lia]. }
  apply Z.eqb_eq in Hb.
  destruct (altKey e); simpl.
  - destruct (isHoveringVoxel ui && truthy (hoveredVoxelId ui)); simpl;
      (repeat split; try lia; try discriminate; try contradiction;
       exists []; rewrite app_nil_r; split; [reflexivity | simpl; lia]).
  - repeat split; try lia; try discriminate; try contradiction.
    eexists. split; [reflexivity | simpl; lia].
Qed.

Lemma press_changes_at_most_one_voxel_witness :
  handleMouseDown scenario_ui1 {| button := 2; altKey := false |} initial_store
  = Returned initial_store.
Proof.
  apply (proj1 (proj2 (press_changes_at_most_one_voxel
                         scenario_ui1 {| button := 2; altKey := false |} initial_store))).
  simpl. lia.
Defined.

(** * Further properties of the projection *)

Section MoreProjectionFacts.
Context `{ThreeColor}.

(** Slots from the end of the loop on are left alone. *)
Lemma forEach_voxel_above (vs : list Voxel.t) :
  forall i mesh h j, (i + length vs <= j)%nat ->
    instanceMatrix (forEach_voxel i vs mesh h).1 !! j = instanceMatrix mesh !! j
    /\ color_slots (forEach_voxel i vs mesh h).1 !! j = color_slots mesh !! j.
Proof.
  induction vs as [|v vs IH]; intros i mesh h j Hj; simpl; [split; reflexivity|].
  simpl in Hj.
  destruct (IH (S i) (setColorAt i (Color_set h (color_or_default v))
                        (setMatrixAt i (updateMatrix (Voxel.x v) (Voxel.y v) (Voxel.z v)) mesh))
               (Color_set h (color_or_default v)) j) as [Hm Hc]; [lia|].
  rewrite Hm, Hc, color_slots_setColorAt, color_slots_setMatrixAt. simpl.
  split; apply list_lookup_insert_ne; lia.
Qed.

Lemma helper_after_snoc (h : rgb) (vs : list Voxel.t) (v : Voxel.t) :
  helper_after h (vs ++ [v]) = Color_set (helper_after h vs) (color_or_default v).
Proof. unfold helper_after. rewrite fold_left_app. reflexivity. Qed.

(** The colour slot of snapshot index [i], for a snapshot that fits. *)
Lemma projected_color_slot (mesh : InstancedMesh) (h : rgb)
      (snapshot : list Voxel.t) (i : nat) (v : Voxel.t) :
  mesh_wf mesh ->
  (length snapshot <= length (instanceMatrix mesh))%nat ->
  snapshot !! i = Some v ->
  color_slots (forEach_voxel 0 snapshot (set_count (length snapshot) mesh) h).1 !! i
  = Some (Color_set (helper_after h (take i snapshot)) (color_or_default v)).
Proof.
  intros Hwf Hfit Hi.
  assert (Hlt : (i < length snapshot)%nat) by (eapply lookup_lt_Some; eassumption).
  apply (forEach_voxel_color_at snapshot 0%nat _ h i v Hi).
  change (color_slots (set_count (length snapshot) mesh)) with (color_slots mesh).
  unfold mesh_wf in Hwf. simpl. lia.
Qed.
End MoreProjectionFacts.

(** X11.  Hover and projection agree on indices: for a snapshot that fits
    the mesh, the voxel whose id a hit on instance [i] puts into the hover
    state is the voxel whose translation the projection wrote to slot
    [i]. *)
Theorem hovered_id_is_of_the_drawn_voxel `{ThreeColor}
        (mesh : InstancedMesh) (colorHelper : rgb) (snapshot : list Voxel.t)
        (hit : intersection) (rest : list intersection) (ui : interaction)
        (i : nat) (v : Voxel.t) :
  (length snapshot <= length (instanceMatrix mesh))%nat ->
  object_name hit = "voxels" ->
  instanceId hit = Some i ->
  snapshot !! i = Some v ->
  exists mesh' colorHelper',
    VoxelInstances_effect (Some mesh) colorHelper snapshot
    = Returned (Some mesh', colorHelper')
    /\ instanceMatrix mesh' !! i
       = Some (stored (updateMatrix (Voxel.x v) (Voxel.y v) (Voxel.z v)))
    /\ hoveredVoxelId (useFrame_callback snapshot (hit :: rest) ui) = Voxel.id v
    /\ isHoveringVoxel (useFrame_callback snapshot (hit :: rest) ui) = true.
Proof.
  intros Hfit Hname Hinst Hi.
  assert (Hlt : (i < length snapshot)%nat) by (eapply lookup_lt_Some; eassumption).
  eexists _, _. split; [apply VoxelInstances_effect_returns|].
  split.
  - apply (forEach_voxel_matrix_at snapshot 0%nat _ colorHelper i v Hi). simpl. lia.
  - unfold useFrame_callback. rewrite Hname, Hinst, Hi. simpl. split; reflexivity.
Qed.

Lemma hovered_id_is_of_the_drawn_voxel_witness :
  exists mesh' colorHelper',
    VoxelInstances_effect (Some (new_InstancedMesh 2)) white
      [Voxel.mk 2 3 (-1) (JStr "#ff003c") JUndefined; Voxel.mk 0 0 0 JNull (JNum 7)]
    = Returned (Some mesh', colorHelper')
    /\ instanceMatrix mesh' !! 1%nat = Some (stored (updateMatrix 0 0 0))
    /\ hoveredVoxelId
         (useFrame_callback
            [Voxel.mk 2 3 (-1) (JStr "#ff003c") JUndefined; Voxel.mk 0 0 0 JNull (JNum 7)]
            [hit_instance 1] initial_interaction) = JNum 7
    /\ isHoveringVoxel
         (useFrame_callback
            [Voxel.mk 2 3 (-1) (JStr "#ff003c") JUndefined; Voxel.mk 0 0 0 JNull (JNum 7)]
            [hit_instance 1] initial_interaction) = true.
Proof.
  apply (hovered_id_is_of_the_drawn_voxel
           (new_InstancedMesh 2) white
           [Voxel.mk 2 3 (-1) (JStr "#ff003c") JUndefined; Voxel.mk 0 0 0 JNull (JNum 7)]
           (hit_instance 1) [] initial_interaction 1%nat (Voxel.mk 0 0 0 JNull (JNum 7)));
    [simpl; lia | reflexivity | reflexivity | reflexivity].
Defined.

(** X12.  Projecting does not clear what lies beyond the snapshot: every
    matrix and colour slot at an index from the snapshot length on holds
    what it held before, hidden only by the count. *)
Theorem slots_beyond_snapshot_are_stale `{ThreeColor}
        (mesh : InstancedMesh) (colorHelper : rgb) (snapshot : list Voxel.t) :
  exists mesh' colorHelper',
    VoxelInstances_effect (Some mesh) colorHelper snapshot
    = Returned (Some mesh', colorHelper')
    /\ count mesh' = length snapshot
    /\ forall j : nat,
         (length snapshot <= j)%nat ->
         instanceMatrix mesh' !! j = instanceMatrix mesh !! j
         /\ color_slots mesh' !! j = color_slots mesh !! j.
Proof.
  eexists _, _. split; [apply VoxelInstances_effect_returns|].
  split; [apply forEach_voxel_count|].
  intros j Hj.
  destruct (forEach_voxel_above snapshot 0%nat (set_count (length snapshot) mesh)
              colorHelper j) as [Hm Hc]; [simpl; lia|].
  rewrite Hm, Hc. split; reflexivity.
Qed.

Lemma slots_beyond_snapshot_are_stale_witness :
  exists mesh1 h1 mesh2 h2,
    VoxelInstances_effect (Some (new_InstancedMesh 2)) white
      [Voxel.mk 2 3 (-1) (JStr "#ff003c") JUndefined; Voxel.mk 5 5 5 JNull (JNum 7)]
    = Returned (Some mesh1, h1)
    /\ VoxelInstances_effect (Some mesh1) h1 [Voxel.mk 2 3 (-1) (JStr "#ff003c") JUndefined]
       = Returned (Some mesh2, h2)
    /\ count mesh2 = 1%nat
    /\ instanceMatrix mesh2 !! 1%nat = Some (stored (updateMatrix 5 5 5)).
Proof.
  pose proof (VoxelInstances_effect_returns
                (new_InstancedMesh 2) white
                [Voxel.mk 2 3 (-1) (JStr "#ff003c") JUndefined; Voxel.mk 5 5 5 JNull (JNum 7)])
    as E1.
  pose proof (forEach_voxel_matrix_at
                [Voxel.mk 2 3 (-1) (JStr "#ff003c") JUndefined; Voxel.mk 5 5 5 JNull (JNum 7)]
                0%nat (set_count 2 (new_InstancedMesh 2)) white 1%nat _ eq_refl) as Hslot.
  set (mesh1 := (forEach_voxel 0
                   [Voxel.mk 2 3 (-1) (JStr "#ff003c") JUndefined; Voxel.mk 5 5 5 JNull (JNum 7)]
                   (set_count 2 (new_InstancedMesh 2)) white).1) in *.
  set (h1 := helper_after white
               [Voxel.mk 2 3 (-1) (JStr "#ff003c") JUndefined; Voxel.mk 5 5 5 JNull (JNum 7)]) in *.
  destruct (slots_beyond_snapshot_are_stale
              mesh1 h1 [Voxel.mk 2 3 (-1) (JStr "#ff003c") JUndefined])
    as (mesh2 & h2 & E2 & Hcount & Hstale).
  exists mesh1, h1, mesh2, h2.
  split; [exact E1|]. split; [exact E2|]. split; [exact Hcount|].
  destruct (Hstale 1%nat) as [Hm _]; [simpl; lia|].
  rewrite Hm. apply Hslot. simpl. lia.
Defined.

(** X13.  A voxel whose colour is a style string that three.js recognises
    is drawn in exactly that colour, whatever its neighbours are, and a
    voxel without a colour is drawn in the default ['#00d2ff'] (when that
    is recognised). *)
Theorem recognised_color_is_drawn `{ThreeColor}
        (mesh : InstancedMesh) (colorHelper : rgb) (snapshot : list Voxel.t)
        (i : nat) (v : Voxel.t) (style : string) (c : rgb) :
  mesh_wf mesh ->
  (length snapshot <= length (instanceMatrix mesh))%nat ->
  snapshot !! i = Some v ->
  (if truthy (Voxel.color v) then Voxel.color v = JStr style else style = "#00d2ff") ->
  setStyle style = Some c ->
  exists mesh' colorHelper',
    VoxelInstances_effect (Some mesh) colorHelper snapshot
    = Returned (Some mesh', colorHelper')
    /\ color_slots mesh' !! i = Some c.
Proof.
  intros Hwf Hfit Hi Hcol Hstyle.
  eexists _, _. split; [apply VoxelInstances_effect_returns|].
  rewrite (projected_color_slot mesh colorHelper snapshot i v Hwf Hfit Hi).
  f_equal.
  assert (E : color_or_default v = JStr style).
  { unfold color_or_default, js_or. destruct (truthy (Voxel.color v)); congruence. }
  rewrite E. apply Color_set_style. exact Hstyle.
Qed.

Lemma recognised_color_is_drawn_witness :
  exists mesh' colorHelper',
    VoxelInstances_effect (Some (new_InstancedMesh 2)) white
      [Voxel.mk 2 3 (-1) (JStr "#ff003c") JUndefined; Voxel.mk 0 0 0 JNull (JNum 7)]
    = Returned (Some mesh', colorHelper')
    /\ color_slots mesh' !! 1%nat = Some (0, 210, 255).
Proof.
  apply (recognised_color_is_drawn (H := hex6_color)
           (new_InstancedMesh 2) white
           [Voxel.mk 2 3 (-1) (JStr "#ff003c") JUndefined; Voxel.mk 0 0 0 JNull (JNum 7)]
           1%nat (Voxel.mk 0 0 0 JNull (JNum 7)) "#00d2ff" (0, 210, 255)).
  - apply new_InstancedMesh_wf.
  - simpl. lia.
  - reflexivity.
  - reflexivity.
  - reflexivity.
Defined.

(** X14.  A voxel whose colour string three.js does not recognise is drawn
    in the colour of the voxel before it in the grid: the loop shares one
    colour helper, which an unknown style leaves as the previous iteration
    set it. *)
Theorem unknown_color_takes_the_previous_one `{ThreeColor}
        (mesh : InstancedMesh) (colorHelper : rgb) (snapshot : list Voxel.t)
        (i : nat) (u v : Voxel.t) (style : string) :
  mesh_wf mesh ->
  (length snapshot <= length (instanceMatrix mesh))%nat ->
  snapshot !! i = Some u ->
  snapshot !! S i = Some v ->
  Voxel.color v = JStr style ->
  style <> EmptyString ->
  setStyle style = None ->
  exists mesh' colorHelper',
    VoxelInstances_effect (Some mesh) colorHelper snapshot
    = Returned (Some mesh', colorHelper')
    /\ color_slots mesh' !! S i = color_slots mesh' !! i.
Proof.
  intros Hwf Hfit Hu Hv Hcol Hne Hstyle.
  eexists _, _. split; [apply VoxelInstances_effect_returns|].
  rewrite (projected_color_slot mesh colorHelper snapshot (S i) v Hwf Hfit Hv).
  rewrite (projected_color_slot mesh colorHelper snapshot i u Hwf Hfit Hu).
  f_equal.
  assert (E : color_or_default v = JStr style).
  { unfold color_or_default, js_or. rewrite Hcol. simpl.
    destruct (String.eqb_spec style EmptyString); [contradiction|reflexivity]. }
  rewrite E. simpl. rewrite Hstyle.
  rewrite (take_S_r snapshot i u Hu). apply helper_after_snoc.
Qed.

Lemma unknown_color_takes_the_previous_one_witness :
  exists mesh' colorHelper',
    VoxelInstances_effect (Some (new_InstancedMesh 2)) white
      [Voxel.mk 2 3 (-1) (JStr "#ff003c") JUndefined;
       Voxel.mk 0 0 0 (JStr "no such colour") (JNum 7)]
    = Returned (Some mesh', colorHelper')
    /\ color_slots mesh' !! 1%nat = color_slots mesh' !! 0%nat.
Proof.
  apply (unknown_color_takes_the_previous_one
           (new_InstancedMesh 2) white
           [Voxel.mk 2 3 (-1) (JStr "#ff003c") JUndefined;
            Voxel.mk 0 0 0 (JStr "no such colour") (JNum 7)]
           0%nat (Voxel.mk 2 3 (-1) (JStr "#ff003c") JUndefined)
           (Voxel.mk 0 0 0 (JStr "no such colour") (JNum 7)) "no such colour").
  - apply new_InstancedMesh_wf.
  - simpl. lia.
  - reflexivity.
  - reflexivity.
  - reflexivity.
  - discriminate.
  - reflexivity.
Defined.

Lemma projected_mesh_wf `{ThreeColor} (mesh : InstancedMesh) (h : rgb)
      (vs : list Voxel.t) (n : nat) :
  mesh_wf mesh -> mesh_wf (forEach_voxel 0 vs (set_count n mesh) h).1.
Proof.
  unfold mesh_wf. intros Hwf.
  rewrite forEach_voxel_color_capacity, forEach_voxel_capacity. exact Hwf.
Qed.

(** X15.  Re-projecting after a voxel has been appended, on the mesh and
    with the colour helper that the previous projection left, raises the
    count by one and leaves the transforms of the earlier voxels as they
    were; their colours are as they were too, for every voxel whose colour
    does not depend on what the helper held (a number or a recognised
    style). *)
Theorem projection_stable_under_append `{ThreeColor}
        (mesh : InstancedMesh) (colorHelper : rgb)
        (snapshot : list Voxel.t) (v : Voxel.t) :
  mesh_wf mesh ->
  (length snapshot < length (instanceMatrix mesh))%nat ->
  exists mesh1 h1 mesh2 h2,
    VoxelInstances_effect (Some mesh) colorHelper snapshot = Returned (Some mesh1, h1)
    /\ VoxelInstances_effect (Some mesh1) h1 (snapshot ++ [v]) = Returned (Some mesh2, h2)
    /\ count mesh2 = S (count mesh1)
    /\ forall (i : nat) (u : Voxel.t),
         snapshot !! i = Some u ->
         instanceMatrix mesh2 !! i = instanceMatrix mesh1 !! i
         /\ ((forall h h' : rgb,
                Color_set h (color_or_default u) = Color_set h' (color_or_default u)) ->
             color_slots mesh2 !! i = color_slots mesh1 !! i).
Proof.
  intros Hwf Hfit.
  eexists _, _, _, _.
  split; [apply VoxelInstances_effect_returns|].
  split; [apply VoxelInstances_effect_returns|].
  set (mesh1 := (forEach_voxel 0 snapshot (set_count (length snapshot) mesh) colorHelper).1).
  assert (Hcap1 : length (instanceMatrix mesh1) = length (instanceMatrix mesh))
    by (unfold mesh1; rewrite forEach_voxel_capacity; reflexivity).
  assert (Hwf1 : mesh_wf mesh1) by (now apply projected_mesh_wf).
  split.
  - rewrite forEach_voxel_count. unfold mesh1. rewrite forEach_voxel_count.
    simpl. rewrite length_app. simpl. lia.
  - intros i u Hu.
    assert (Hi : (i < length snapshot)%nat) by (eapply lookup_lt_Some; eassumption).
    assert (Hu' : (snapshot ++ [v]) !! i = Some u) by (apply lookup_app_l_Some; exact Hu).
    assert (Hfit' : (length (snapshot ++ [v]) <= length (instanceMatrix mesh1))%nat)
      by (rewrite length_app, Hcap1; simpl; lia).
    split.
    + rewrite (forEach_voxel_matrix_at (snapshot ++ [v]) 0%nat _ _ i u Hu')
        by (simpl; lia).
      unfold mesh1.
      rewrite (forEach_voxel_matrix_at snapshot 0%nat _ colorHelper i u Hu)
        by (simpl; lia).
      reflexivity.
    + intros Hindep.
      rewrite (projected_color_slot mesh1 _ (snapshot ++ [v]) i u Hwf1 Hfit' Hu').
      unfold mesh1.
      rewrite (projected_color_slot mesh colorHelper snapshot i u Hwf) by (lia || exact Hu).
      f_equal. apply Hindep.
Qed.

Lemma projection_stable_under_append_witness :
  exists mesh1 h1 mesh2 h2,
    VoxelInstances_effect (Some (new_InstancedMesh 3)) white
      [Voxel.mk 2 3 (-1) (JStr "#ff003c") JUndefined] = Returned (Some mesh1, h1)
    /\ VoxelInstances_effect (Some mesh1) h1
         ([Voxel.mk 2 3 (-1) (JStr "#ff003c") JUndefined] ++ [Voxel.mk 0 0 0 JNull (JNum 7)])
       = Returned (Some mesh2, h2)
    /\ count mesh2 = S (count mesh1)
    /\ instanceMatrix mesh2 !! 0%nat = instanceMatrix mesh1 !! 0%nat
    /\ color_slots mesh2 !! 0%nat = color_slots mesh1 !! 0%nat.
Proof.
  destruct (projection_stable_under_append
              (new_InstancedMesh 3) white
              [Voxel.mk 2 3 (-1) (JStr "#ff003c") JUndefined] (Voxel.mk 0 0 0 JNull (JNum 7)))
    as (mesh1 & h1 & mesh2 & h2 & E1 & E2 & Hcount & Hslots).
  - apply new_InstancedMesh_wf.
  - simpl. lia.
  - exists mesh1, h1, mesh2, h2.
    split; [exact E1|]. split; [exact E2|]. split; [exact Hcount|].
    destruct (Hslots 0%nat _ eq_refl) as [Hm Hc].
    split; [exact Hm|]. apply Hc. reflexivity.
Defined.

(** * Properties of the movement keys *)

(** A code is one of the six with a case, or differs from all of them. *)
Lemma key_cases (x : string) :
  x = "KeyW" \/ x = "KeyS" \/ x = "KeyA" \/ x = "KeyD" \/ x = "Space"
  \/ x = "ShiftLeft"
  \/ (String.eqb x "KeyW" = false /\ String.eqb x "KeyS" = false
      /\ String.eqb x "KeyA" = false /\ String.eqb x "KeyD" = false
      /\ String.eqb x "Space" = false /\ String.eqb x "ShiftLeft" = false).
Proof.
  destruct (String.eqb x "KeyW") eqn:E1; [apply String.eqb_eq in E1; tauto|].
  destruct (String.eqb x "KeyS") eqn:E2; [apply String.eqb_eq in E2; tauto|].
  destruct (String.eqb x "KeyA") eqn:E3; [apply String.eqb_eq in E3; tauto|].
  destruct (String.eqb x "KeyD") eqn:E4; [apply String.eqb_eq in E4; tauto|].
  destruct (String.eqb x "Space") eqn:E5; [apply String.eqb_eq in E5; tauto|].
  destruct (String.eqb x "ShiftLeft") eqn:E6; [apply String.eqb_eq in E6; tauto|].
  tauto.
Qed.

Lemma flag_of_set_key (code c : string) (b : bool) (m : Player.move) :
  Player.flag_of code (Player.set_key c b m)
  = if String.eqb c code
    then option_map (fun _ => b) (Player.flag_of code m)
    else Player.flag_of code m.
Proof.
  destruct (key_cases c)
    as [-> | [-> | [-> | [-> | [-> | [-> | (C1 & C2 & C3 & C4 & C5 & C6)]]]]]];
    destruct (key_cases code)
      as [-> | [-> | [-> | [-> | [-> | [-> | (D1 & D2 & D3 & D4 & D5 & D6)]]]]]];
    unfold Player.set_key, Player.flag_of;
    rewrite ?(String.eqb_sym _ code);
    rewrite ?C1, ?C2, ?C3, ?C4, ?C5, ?C6, ?D1, ?D2, ?D3, ?D4, ?D5, ?D6;
    try reflexivity.
  destruct (String.eqb code c); reflexivity.
Qed.

Lemma set_key_unknown (c : string) (b : bool) (m : Player.move) :
  Player.flag_of c m = None -> Player.set_key c b m = m.
Proof.
  unfold Player.flag_of, Player.set_key.
  repeat (destruct (String.eqb c _); [discriminate|]). reflexivity.
Qed.

Lemma flag_of_None_invariant (c : string) (m m' : Player.move) :
  Player.flag_of c m = None -> Player.flag_of c m' = None.
Proof.
  unfold Player.flag_of.
  repeat (destruct (String.eqb c _); [discriminate|]). reflexivity.
Qed.

Lemma run_keys_snoc (evs : list Player.key_event) (ev : Player.key_event) (m : Player.move) :
  Player.run_keys (evs ++ [ev]) m = Player.on_key (Player.run_keys evs m) ev.
Proof. unfold Player.run_keys. rewrite fold_left_app. reflexivity. Qed.

(** X16.  After any sequence of key events, the flag of a movement key is
    set exactly when the last event with that key's code was a keydown, and
    is what it was when there was no such event; events of other codes do
    not touch it, and a sequence of codes that have no case leaves the
    whole state as it was. *)
Theorem flag_follows_last_event (evs : list Player.key_event) (m : Player.move) (code : string) :
  Player.flag_of code (Player.run_keys evs m)
  = option_map
      (fun held =>
         match find (fun ev => String.eqb (Player.code_of ev) code) (rev evs) with
         | Some ev => Player.is_down ev
         | None => held
         end)
      (Player.flag_of code m)
  /\ (Forall (fun ev => Player.flag_of (Player.code_of ev) m = None) evs ->
      Player.run_keys evs m = m).
Proof.
  split.
  - induction evs as [|ev evs IH] using rev_ind.
    + simpl. destruct (Player.flag_of code m); reflexivity.
    + rewrite run_keys_snoc, rev_app_distr. simpl.
      destruct ev as [c|c]; simpl;
        unfold Player.handleKeyDown, Player.handleKeyUp;
        rewrite flag_of_set_key, IH;
        destruct (String.eqb c code); simpl;
        destruct (Player.flag_of code m); reflexivity.
  - induction evs as [|ev evs IH] using rev_ind; intros Hall; [reflexivity|].
    apply Forall_app in Hall as [Hevs Hev]. apply Forall_inv in Hev.
    rewrite run_keys_snoc, (IH Hevs).
    destruct ev as [c|c]; simpl in *; now apply set_key_unknown.
Qed.

Lemma flag_follows_last_event_witness :
  Player.run_keys [Player.KeyDown "KeyQ"; Player.KeyUp "Escape"] Player.initial_move
  = Player.initial_move.
Proof.
  apply (proj2 (flag_follows_last_event
                  [Player.KeyDown "KeyQ"; Player.KeyUp "Escape"] Player.initial_move "KeyW")).
  repeat constructor.
Defined.

(** X17.  Opposite keys cancel before the direction is normalised: the
    horizontal vector [frontVector - sideVector] has no vertical part, its
    other parts are -1, 0 or 1, and it is the zero vector exactly when
    forward and backward agree and left and right agree; the vertical
    factor is zero exactly when up and down agree. *)
Theorem opposite_keys_cancel (m : Player.move) :
  Player.horizontalDir_raw m
  = (Player.Number (Player.right m) - Player.Number (Player.left m), 0,
     Player.Number (Player.backward m) - Player.Number (Player.forward m))
  /\ (Player.horizontalDir_raw m = (0, 0, 0)
      <-> Player.forward m = Player.backward m /\ Player.left m = Player.right m)
  /\ (Player.vertical_factor m = 0 <-> Player.up m = Player.down m)
  /\ -1 <= (Player.horizontalDir_raw m).1.1 <= 1
  /\ -1 <= (Player.horizontalDir_raw m).2 <= 1
  /\ -1 <= Player.vertical_factor m <= 1.
Proof.
  destruct m as [f b l r u d].
  unfold Player.horizontalDir_raw, Player.subVectors, Player.frontVector,
    Player.sideVector, Player.vertical_factor. simpl.
  split; [f_equal; [f_equal|]; lia|].
  destruct f, b, l, r, u, d; simpl;
    repeat split; try lia; try reflexivity; try discriminate;
    try (intros [? ?]; discriminate); try (intros ?; discriminate).
Qed.

(** * Properties of the palette *)

(** X18.  The colour shortcut: a key whose [parseInt] is from 1 to 6
    selects that entry of the palette, which is always there; any other
    key, parsed or not, leaves the store as it is; the grid is never
    touched. *)
Theorem shortcut_selects_palette_entry (key : string) (s : store) :
  voxels (App.handleKeyDown key s) = voxels s
  /\ (forall k : Z,
        App.parseInt key = Some k -> 1 <= k <= 6 ->
        App.COLORS !! Z.to_nat (k - 1) = Some (selectedColor (App.handleKeyDown key s)))
  /\ (forall k : Z,
        App.parseInt key = Some k -> k < 1 \/ 6 < k -> App.handleKeyDown key s = s)
  /\ (App.parseInt key = None -> App.handleKeyDown key s = s).
Proof.
  unfold App.handleKeyDown.
  split; [|split; [|split]].
  - destruct (App.parseInt key) as [k|]; [|reflexivity].
    destruct ((1 <=? k) && (k <=? 6)); [|reflexivity].
    destruct (App.COLORS !! Z.to_nat (k - 1)); reflexivity.
  - intros k -> Hk.
    replace ((1 <=? k) && (k <=? 6)) with true
      by (symmetry; apply andb_true_iff; split; apply Z.leb_le; lia).
    assert (Hcase : k = 1 \/ k = 2 \/ k = 3 \/ k = 4 \/ k = 5 \/ k = 6) by lia.
    destruct Hcase as [-> | [-> | [-> | [-> | [-> | ->]]]]]; reflexivity.
  - intros k -> Hk.
    replace ((1 <=? k) && (k <=? 6)) with false; [reflexivity|].
    symmetry. apply andb_false_iff. rewrite !Z.leb_gt. lia.
  - intros ->. reflexivity.
Qed.

Lemma shortcut_selects_palette_entry_witness :
  App.COLORS !! 2%nat = Some (selectedColor (App.handleKeyDown "3" initial_store))
  /\ App.handleKeyDown "7" initial_store = initial_store
  /\ App.handleKeyDown "Shift" initial_store = initial_store.
Proof.
  split; [|split].
  - apply (proj1 (proj2 (shortcut_selects_palette_entry "3" initial_store)) 3 eq_refl). lia.
  - apply (proj1 (proj2 (proj2 (shortcut_selects_palette_entry "7" initial_store)))
             7 eq_refl). lia.
  - apply (proj2 (proj2 (proj2 (shortcut_selects_palette_entry "Shift" initial_store)))).
    reflexivity.
Defined.

(** X19.  Among the keys that are a single character, exactly the digits
    ['1'] to ['6'] select a colour, digit [d] selecting entry [d - 1] of the
    palette; every other character, the digits 0, 7, 8 and 9 included,
    leaves the store as it is. *)
Theorem single_character_shortcuts (c : ascii) (s : store) :
  let n := Z.of_nat (nat_of_ascii c) in
  App.handleKeyDown (String c EmptyString) s
  = if (49 <=? n) && (n <=? 54)
    then match App.COLORS !! Z.to_nat (n - 49) with
         | Some col => setSelectedColor col s
         | None => s
         end
    else s.
Proof.
  destruct c as [b0 b1 b2 b3 b4 b5 b6 b7].
  destruct b0, b1, b2, b3, b4, b5, b6, b7; reflexivity.
Qed.

Lemma swatch_keeps_palette (i : nat) (s : store) :
  selectedColor s ∈ App.COLORS -> selectedColor (App.swatch_onClick i s) ∈ App.COLORS.
Proof.
  unfold App.swatch_onClick. intros Hs.
  destruct (App.COLORS !! i) as [c|] eqn:E; [|exact Hs].
  simpl. eapply list_elem_of_lookup_2. exact E.
Qed.

Lemma shortcut_keeps_palette (key : string) (s : store) :
  selectedColor s ∈ App.COLORS -> selectedColor (App.handleKeyDown key s) ∈ App.COLORS.
Proof.
  unfold App.handleKeyDown. intros Hs.
  destruct (App.parseInt key) as [k|]; [|exact Hs].
  destruct ((1 <=? k) && (k <=? 6)); [|exact Hs].
  destruct (App.COLORS !! Z.to_nat (k - 1)) as [c|] eqn:E; [|exact Hs].
  simpl. eapply list_elem_of_lookup_2. exact E.
Qed.

Lemma apply_op_selectedColor (o : add_op) (w : world) :
  selectedColor (st (apply_op w o)) = selectedColor (st w).
Proof.
  destruct o as [x y z [e|]|p]; simpl; try reflexivity.
  unfold onInsert. destruct (existsb (same_cell p) (voxels (st w))); reflexivity.
Qed.

Lemma initializeVoxels_selectedColor (r : select_response) (w : world) :
  selectedColor (st (initializeVoxels r w)) = selectedColor (st w).
Proof. unfold initializeVoxels. destruct (select_error r); reflexivity. Qed.

Lemma on_event_keeps_palette (ev : App.event) (w : world) :
  selectedColor (st w) ∈ App.COLORS ->
  selectedColor (st (App.on_event w ev)) ∈ App.COLORS.
Proof.
  intros Hw. destruct ev as [key|i|r|o]; simpl.
  - now apply shortcut_keeps_palette.
  - now apply swatch_keeps_palette.
  - now rewrite initializeVoxels_selectedColor.
  - now rewrite apply_op_selectedColor.
Qed.

Lemma run_keeps_palette (evs : list App.event) :
  forall w : world,
    selectedColor (st w) ∈ App.COLORS ->
    selectedColor (st (App.run evs w)) ∈ App.COLORS.
Proof.
  induction evs as [|ev evs IH]; intros w Hw; simpl; [exact Hw|].
  apply IH. now apply on_event_keeps_palette.
Qed.

Lemma initial_color_in_palette : selectedColor initial_store ∈ App.COLORS.
Proof. apply list_elem_of_here. Qed.

(** Where a voxel of the grid can come from. *)
Lemma on_event_voxel_origin (ev : App.event) (w : world) (v : Voxel.t) :
  selectedColor (st w) ∈ App.COLORS ->
  v ∈ voxels (st (App.on_event w ev)) ->
  v ∈ voxels (st w)
  \/ (exists r rows, ev = App.Loaded r /\ data r = Some rows /\ v ∈ map voxel_of_row rows)
  \/ ev = App.Op (RemoteInsert v)
  \/ (exists x y z c, c ∈ App.COLORS /\ v = Voxel.mk x y z (JStr c) JUndefined).
Proof.
  intros Hpal. destruct ev as [key|i|r|[x y z e|p]]; simpl.
  - unfold App.handleKeyDown.
    destruct (App.parseInt key) as [k|]; [|auto].
    destruct ((1 <=? k) && (k <=? 6)); [|auto].
    destruct (App.COLORS !! Z.to_nat (k - 1)); auto.
  - unfold App.swatch_onClick. destruct (App.COLORS !! i); auto.
  - unfold initializeVoxels. destruct (select_error r); simpl; [auto|].
    destruct (data r) as [rows|] eqn:Ed; simpl.
    + intros Hin. right; left. exists r, rows. auto.
    + intros Hin. apply elem_of_nil in Hin. contradiction.
  - rewrite addVoxel_voxels. intros Hin.
    apply elem_of_app in Hin as [Hin|Hin]; [auto|].
    apply list_elem_of_singleton in Hin. subst v.
    right; right; right. exists x, y, z, (selectedColor (st w)). auto.
  - unfold onInsert. destruct (existsb (same_cell p) (voxels (st w))); simpl; [auto|].
    intros Hin. apply elem_of_app in Hin as [Hin|Hin]; [auto|].
    apply list_elem_of_singleton in Hin. subst v. auto.
Qed.

(** X20.  Through any run of the application from its initial store, the
    selected colour is one of the six palette entries, and every voxel of
    the grid is a loaded row, the payload of a remote insert, or a local
    voxel without id whose colour is a palette entry. *)
Theorem local_voxels_have_palette_colors (evs : list App.event) :
  selectedColor (st (App.run evs initial_world)) ∈ App.COLORS
  /\ forall v : Voxel.t,
       v ∈ voxels (st (App.run evs initial_world)) ->
       (exists r rows, App.Loaded r ∈ evs /\ data r = Some rows /\ v ∈ map voxel_of_row rows)
       \/ App.Op (RemoteInsert v) ∈ evs
       \/ (exists x y z c, c ∈ App.COLORS /\ v = Voxel.mk x y z (JStr c) JUndefined).
Proof.
  split; [apply run_keeps_palette, initial_color_in_palette|].
  assert (Hgen : forall evs w v,
             selectedColor (st w) ∈ App.COLORS ->
             v ∈ voxels (st (App.run evs w)) ->
             v ∈ voxels (st w)
             \/ (exists r rows, App.Loaded r ∈ evs /\ data r = Some rows
                                /\ v ∈ map voxel_of_row rows)
             \/ App.Op (RemoteInsert v) ∈ evs
             \/ (exists x y z c, c ∈ App.COLORS /\ v = Voxel.mk x y z (JStr c) JUndefined)).
  { clear evs. induction evs as [|ev evs IH]; intros w v Hpal Hin; simpl in *; [auto|].
    apply IH in Hin; [|now apply on_event_keeps_palette].
    destruct Hin as [Hin | [(r & rows & Hr & Hd & Hv) | [Hrem | Hloc]]].
    - apply on_event_voxel_origin in Hin; [|exact Hpal].
      destruct Hin as [Hin | [(r & rows & -> & Hd & Hv) | [-> | Hloc]]].
      + auto.
      + right; left. exists r, rows. split; [left | auto].
      + right; right; left. left.
      + auto.
    - right; left. exists r, rows. split; [now right | auto].
    - right; right; left. now right.
    - auto. }
  intros v Hin.
  destruct (Hgen evs initial_world v initial_color_in_palette Hin) as [H0 | H1]; [|exact H1].
  apply elem_of_nil in H0. contradiction.
Qed.

Lemma active_swatch_of_palette_color (s : store) :
  selectedColor s ∈ App.COLORS ->
  exists i : nat,
    App.active_swatches s = [i] /\ App.COLORS !! i = Some (selectedColor s).
Proof.
  unfold App.active_swatches. intros Hin.
  unfold App.COLORS in Hin.
  repeat (apply elem_of_cons in Hin as [-> | Hin];
          [eexists; split; reflexivity|]).
  apply elem_of_nil in Hin. contradiction.
Qed.

(** X21.  Through any run of the application from its initial store,
    exactly one swatch of the colour picker is drawn active, the one of the
    selected colour. *)
Theorem exactly_one_active_swatch (evs : list App.event) :
  exists i : nat,
    App.active_swatches (st (App.run evs initial_world)) = [i]
    /\ App.COLORS !! i = Some (selectedColor (st (App.run evs initial_world))).
Proof.
  apply active_swatch_of_palette_color, run_keeps_palette, initial_color_in_palette.
Qed.

(** * [Math.round] on doubles *)

Lemma Math_round_integer (n : Z) : Math_round (inject_Z n) = n.
Proof. apply Math_round_unique. unfold nearest_integer. split; lra. Qed.

Lemma Math_round_dyadic (v : Z) (p : positive) :
  Math_round (v # (2 ^ p)%positive) = (2 * v + 2 ^ Z.pos p) / 2 ^ (1 - Z.neg p).
Proof.
  unfold Math_round, Qplus, Qfloor. cbn [Qnum Qden].
  replace (1 - Z.neg p) with (Z.pos p + 1) by lia.
  rewrite Z.pow_add_r by lia.
  rewrite Pos2Z.inj_mul, Pos2Z.inj_pow.
  f_equal; lia.
Qed.

(** X22.  [Math.round] as computed on the bits of a finite double is the
    rounding of the number the double stands for: the nearest integer, the
    upper one at a tie; it has no value on NaN and the infinities. *)
Theorem Math_round_double_is_nearest (d : double) :
  match double_to_Q d with
  | Some q =>
      Math_round_double d = Some (Math_round q)
      /\ nearest_integer q (Math_round q)
  | None => Math_round_double d = None
  end.
Proof.
  destruct d as [sign| sign | | sign m e]; simpl; try reflexivity.
  - split; [reflexivity | apply Math_round_nearest].
  - split; [|apply Math_round_nearest].
    destruct e as [|p|p].
    + simpl. now rewrite Math_round_integer.
    + replace (0 <=? Z.pos p) with true by reflexivity.
      now rewrite Math_round_integer.
    + replace (0 <=? Z.neg p) with false by reflexivity.
      rewrite Math_round_dyadic. reflexivity.
Qed.

(** * The target cell on doubles *)

Lemma Math_round_double_value (d : double) (q : Q) :
  double_to_Q d = Some q -> Math_round_double d = Some (Math_round q).
Proof.
  destruct d as [sign| sign | | sign m e]; simpl; try discriminate.
  - intros E. injection E as <-. reflexivity.
  - intros E. injection E as <-.
    destruct e as [|p|p].
    + simpl. now rewrite Math_round_integer.
    + replace (0 <=? Z.pos p) with true by reflexivity.
      now rewrite Math_round_integer.
    + replace (0 <=? Z.neg p) with false by reflexivity.
      rewrite Math_round_dyadic. reflexivity.
Qed.

Lemma Math_round_double_finite (d : double) (n : Z) :
  Math_round_double d = Some n -> exists q : Q, double_to_Q d = Some q.
Proof.
  destruct d as [sign| sign | | sign m e]; simpl; try discriminate; eauto.
Qed.

(** [Math.round] of a double is [n] exactly when the double is finite and
    [n] is the integer nearest to it, the upper one at a tie. *)
Lemma Math_round_double_iff (d : double) (n : Z) :
  Math_round_double d = Some n
  <-> exists q : Q, double_to_Q d = Some q /\ nearest_integer q n.
Proof.
  split.
  - intros E. destruct (Math_round_double_finite d n E) as [q Hq].
    exists q. split; [exact Hq|].
    rewrite (Math_round_double_value d q Hq) in E. injection E as <-.
    apply Math_round_nearest.
  - intros (q & Hq & Hn).
    rewrite (Math_round_double_value d q Hq). f_equal.
    now apply Math_round_unique.
Qed.

(** Where the three sums are exact, the doubles give the cell of the exact
    computation. *)
Lemma targetCell_double_exact_sums
      (px py pz nx ny nz : double) (p n : Vector3) (qx qy qz : Q) :
  double_to_Q (double_add px (double_mul nx double_0_5)) = Some qx ->
  double_to_Q (double_add py (double_mul ny double_0_5)) = Some qy ->
  double_to_Q (double_add pz (double_mul nz double_0_5)) = Some qz ->
  (qx == v3x p + v3x n * (1 # 2))%Q ->
  (qy == v3y p + v3y n * (1 # 2))%Q ->
  (qz == v3z p + v3z n * (1 # 2))%Q ->
  targetCell_double (px, py, pz) (nx, ny, nz) = Some (targetCell p n).
Proof.
  intros Hx Hy Hz Ex Ey Ez. unfold targetCell_double, targetCell.
  rewrite (Math_round_double_value _ _ Hx), (Math_round_double_value _ _ Hy),
    (Math_round_double_value _ _ Hz).
  simpl. unfold Math_round.
  rewrite (Qfloor_comp _ _ (Qplus_comp _ _ Ex _ _ (Qeq_refl (1 # 2)))).
  rewrite (Qfloor_comp _ _ (Qplus_comp _ _ Ey _ _ (Qeq_refl (1 # 2)))).
  rewrite (Qfloor_comp _ _ (Qplus_comp _ _ Ez _ _ (Qeq_refl (1 # 2)))).
  reflexivity.
Qed.

(** C3 (as amended).  The target cell is the hit point moved half a unit
    along the normal, in double arithmetic, each axis of the result then
    rounded on its own to the nearest integer with ties going up: the cell
    is (x, y, z) exactly when the three double sums are finite and x, y, z
    are the integers nearest to them.  So the hit point (0.5, 0.5, 1.0)
    with normal (0, 0, 1) resolves to (1, 1, 2); the centre (0, 0, 0.5) of
    the top z-face of the voxel at the origin resolves to (0, 0, 1); and
    the hit point (0, 0, 1 - 2^-53), whose sum with 0.5 rounds to the
    double 1.5, resolves to (0, 0, 2). *)
Theorem targetCell_rounds_offset_point (px py pz nx ny nz : double) :
  (forall x y z : Z,
      targetCell_double (px, py, pz) (nx, ny, nz) = Some (x, y, z)
      <-> exists qx qy qz : Q,
            double_to_Q (double_add px (double_mul nx double_0_5)) = Some qx
            /\ double_to_Q (double_add py (double_mul ny double_0_5)) = Some qy
            /\ double_to_Q (double_add pz (double_mul nz double_0_5)) = Some qz
            /\ nearest_integer qx x /\ nearest_integer qy y /\ nearest_integer qz z)
  /\ targetCell_double (double_0_5, double_0_5, double_1) (double_0, double_0, double_1)
     = Some (1, 1, 2)
  /\ targetCell_double (double_0, double_0, double_0_5) (double_0, double_0, double_1)
     = Some (0, 0, 1)
  /\ targetCell_double
       (double_0, double_0, S754_finite false 9007199254740991 (-53))
       (double_0, double_0, double_1)
     = Some (0, 0, 2).
Proof.
  split; [|repeat split].
  intros x y z. unfold targetCell_double.
  split.
  - destruct (Math_round_double (double_add px (double_mul nx double_0_5))) as [x'|] eqn:Ex;
      [|discriminate].
    destruct (Math_round_double (double_add py (double_mul ny double_0_5))) as [y'|] eqn:Ey;
      [|discriminate].
    destruct (Math_round_double (double_add pz (double_mul nz double_0_5))) as [z'|] eqn:Ez;
      [|discriminate].
    intros E. injection E as -> -> ->.
    apply Math_round_double_iff in Ex as (qx & Hx & Nx).
    apply Math_round_double_iff in Ey as (qy & Hy & Ny).
    apply Math_round_double_iff in Ez as (qz & Hz & Nz).
    exists qx, qy, qz. auto 10.
  - intros (qx & qy & qz & Hx & Hy & Hz & Nx & Ny & Nz).
    rewrite (proj2 (Math_round_double_iff _ x) (ex_intro _ qx (conj Hx Nx))).
    rewrite (proj2 (Math_round_double_iff _ y) (ex_intro _ qy (conj Hy Ny))).
    rewrite (proj2 (Math_round_double_iff _ z) (ex_intro _ qz (conj Hz Nz))).
    reflexivity.
Qed.

(** * The hover id across a frame without a hit *)

(** C6 (the code departs from the claim).  A frame hovering a remotely
    inserted voxel with id 7, then a frame in which the ray hits nothing:
    the candidate and the hovering flag are cleared but the hover id is
    still 7, where the branch for a hit on the ground sets it to null.  A
    next frame that hits the batch at an index without a voxel then lets a
    Remove press pass the id 7 to [removeVoxel]. *)
Theorem no_hit_leaves_stale_hover_id :
  let v := Voxel.mk 0 0 0 (JStr "#ff00ff") (JNum 7) in
  let ui1 := useFrame_callback [v] [hit_instance 0] initial_interaction in
  let ui2 := useFrame_callback [v] [] ui1 in
  let ui3 := useFrame_callback [v] [hit_instance 5] ui2 in
  hoveredVoxelId ui1 = JNum 7
  /\ ghost ui2 = None
  /\ isHoveringVoxel ui2 = false
  /\ hoveredVoxelId ui2 = JNum 7
  /\ hoveredVoxelId ui2 <> JNull
  /\ hoveredVoxelId (useFrame_callback [v] [hit_ground_2_3_m1] ui1) = JNull
  /\ handleMouseDown_calls ui3 press_remove = [Call_removeVoxel (JNum 7)].
Proof. simpl. repeat split. discriminate. Qed.
